(** * Edit session engine of the photo editor (src/App.tsx)

    A shallow embedding of the parts of [App.tsx] that own image versioning
    (history and cursor), undo/redo, the pointer-to-natural coordinate
    mapping, the crop geometry and the single asynchronous dispatch of the
    mutating handlers, together with the submit gates of the panels found in
    [components/].

    Modelling conventions.
    - A JavaScript [number] is an extended rational: a finite value is the
      rational it denotes, and [Infinity], [-Infinity], [NaN] follow the IEEE
      rules for products and quotients (a finite non-zero value divided by
      zero is an infinity, [0/0] is [NaN]).  The only zero is the positive
      one.
    - Arithmetic comes twice.  [JS.mul], [JS.div], ... give the exact
      rational result; they carry the statements that are tolerances, bounds
      or facts about non-finite values, which the rounded results meet as
      well.  [Binary64.mul], [Binary64.div], ... round every finite result
      to the nearest binary64 value, ties to even, with gradual underflow and
      overflow to an infinity, as the code's arithmetic does; they carry the
      statements about the exact values the code computes.
    - React state is a record; every [setX] is a field update.  A handler
      reads the state of the render it was created in and applies its updates
      in order.
    - An [async] handler is split at its single [await]: the part before it
      returns the request handed to the collaborator together with the values
      its closure captured; the part after it consumes the reply. *)

From Stdlib Require Import ZArith QArith Qround Qabs Qpower List String Bool.
From Stdlib Require Import Lia Lqa.
From Stdlib Require Qcanon.
From Stdlib Require Import DecimalString.
Import ListNotations.

Local Open Scope string_scope.
Local Open Scope list_scope.
Local Open Scope Z_scope.

(** ** JavaScript values *)

Module JS.

(** [number]. *)
Inductive number : Type :=
| Fin (q : Q)
| PInf
| NInf
| NaN.

Definition of_Z (z : Z) : number := Fin (inject_Z z).

Definition isFinite (a : number) : bool :=
  match a with Fin _ => true | _ => false end.

(** Truthiness of a number: [0] and [NaN] are falsy. *)
Definition truthy (a : number) : bool :=
  match a with
  | Fin q => negb (Qeq_bool q 0)
  | PInf | NInf => true
  | NaN => false
  end.

(** [a || b] on numbers. *)
Definition or_else (a b : number) : number := if truthy a then a else b.

(** The infinity that has the sign of [q] as seen from [pos]; [NaN] when
    [q] is zero. *)
Definition signed_inf (pos : bool) (q : Q) : number :=
  match (0 ?= q)%Q with
  | Lt => if pos then PInf else NInf
  | Gt => if pos then NInf else PInf
  | Eq => NaN
  end.

(** [a * b]. *)
Definition mul (a b : number) : number :=
  match a, b with
  | NaN, _ | _, NaN => NaN
  | Fin x, Fin y => Fin (x * y)
  | Fin x, PInf | PInf, Fin x => signed_inf true x
  | Fin x, NInf | NInf, Fin x => signed_inf false x
  | PInf, PInf | NInf, NInf => PInf
  | PInf, NInf | NInf, PInf => NInf
  end.

(** [a / b]; the zero divisor is the positive zero. *)
Definition div (a b : number) : number :=
  match a, b with
  | NaN, _ | _, NaN => NaN
  | Fin x, Fin y => if Qeq_bool y 0 then signed_inf true x else Fin (x / y)
  | Fin _, (PInf | NInf) => Fin 0
  | PInf, Fin y => if Qle_bool 0 y then PInf else NInf
  | NInf, Fin y => if Qle_bool 0 y then NInf else PInf
  | (PInf | NInf), (PInf | NInf) => NaN
  end.

(** [-a]. *)
Definition neg (a : number) : number :=
  match a with
  | Fin q => Fin (- q)
  | PInf => NInf
  | NInf => PInf
  | NaN => NaN
  end.

(** [a + b]. *)
Definition add (a b : number) : number :=
  match a, b with
  | NaN, _ | _, NaN => NaN
  | Fin p, Fin q => Fin (p + q)
  | PInf, NInf | NInf, PInf => NaN
  | PInf, _ | _, PInf => PInf
  | NInf, _ | _, NInf => NInf
  end.

(** [a - b]. *)
Definition sub (a b : number) : number := add a (neg b).

(** [Math.max(a, b)] and [Math.min(a, b)]: [NaN] as soon as one argument
    is. *)
Definition Math_max (a b : number) : number :=
  match a, b with
  | NaN, _ | _, NaN => NaN
  | PInf, _ | _, PInf => PInf
  | NInf, other | other, NInf => other
  | Fin p, Fin q => if Qle_bool p q then Fin q else Fin p
  end.

Definition Math_min (a b : number) : number :=
  match a, b with
  | NaN, _ | _, NaN => NaN
  | NInf, _ | _, NInf => NInf
  | PInf, other | other, PInf => other
  | Fin p, Fin q => if Qle_bool p q then Fin p else Fin q
  end.

(** Two numbers denote the same value (rationals up to [==]). *)
Definition same (a b : number) : Prop :=
  match a, b with
  | Fin p, Fin q => (p == q)%Q
  | PInf, PInf | NInf, NInf | NaN, NaN => True
  | _, _ => False
  end.

(** Nearest integer of a rational, ties towards [+Infinity]. *)
Definition Qnearest (q : Q) : Z := Qfloor (q + (1 # 2)).

(** [Math.round]. *)
Definition Math_round (a : number) : number :=
  match a with
  | Fin q => of_Z (Qnearest q)
  | other => other
  end.

(** [Array.prototype.slice(start, end)] with integer arguments: a negative
    bound counts from the end, and both bounds are clamped to the array. *)
Definition rel_index (len k : Z) : Z :=
  if k <? 0 then Z.max (len + k) 0 else Z.min k len.

Definition slice {A : Type} (l : list A) (start stop : Z) : list A :=
  let len := Z.of_nat (List.length l) in
  let from := rel_index len start in
  let upto := rel_index len stop in
  firstn (Z.to_nat (Z.max (upto - from) 0)) (skipn (Z.to_nat from) l).

(** [arr[i] ?? null]: an index outside the array reads [undefined]. *)
Definition get {A : Type} (l : list A) (i : Z) : option A :=
  if i <? 0 then None else nth_error l (Z.to_nat i).

(** [!str]: only the empty string is falsy. *)
Definition empty_string (t : string) : bool :=
  match t with EmptyString => true | String _ _ => false end.

(** What a [throw] carries: an [Error] with its message, or anything else. *)
Inductive Thrown : Type :=
| ErrorObj (message : string)
| NotAnError.

End JS.

(** ** Binary64 arithmetic *)

Module Binary64.

(** The integer nearest to a rational, ties to the even one. *)
Definition nearest_even (q : Q) : Z :=
  let f := Qfloor q in
  match (q - inject_Z f ?= 1 # 2)%Q with
  | Lt => f
  | Gt => f + 1
  | Eq => if Z.even f then f else f + 1
  end.

(** The binary exponent of a positive rational [q]: the [e] with
    [2^e <= q < 2^(e+1)]. *)
Definition exponent (q : Q) : Z :=
  let e0 := Z.log2 (Qnum q) - Z.log2 (Z.pos (Qden q)) in
  if Qle_bool (2 ^ e0) q then e0 else e0 - 1.

(** The exponent of the unit in the last place at [q]: 53 significant bits,
    and never below the spacing [2^-1074] of the subnormal numbers. *)
Definition quantum (q : Q) : Z := Z.max (exponent (Qabs q) - 52) (-1074).

(** The binary64 value of a real result: the nearest multiple of the unit
    in the last place, ties to even, and an infinity from [2^1024] on. *)
Definition round (q : Q) : JS.number :=
  if Qeq_bool q 0 then JS.Fin 0
  else
    let u := quantum q in
    let r := (inject_Z (nearest_even (q / 2 ^ u)) * 2 ^ u)%Q in
    if Qle_bool (2 ^ 1024) (Qabs r) then
      if Qle_bool 0 q then JS.PInf else JS.NInf
    else JS.Fin (Qred r).

(** [a * b], [a / b] and [a - b] on binary64 values. *)
Definition mul (a b : JS.number) : JS.number :=
  match a, b with
  | JS.Fin p, JS.Fin q => round (p * q)
  | _, _ => JS.mul a b
  end.

Definition div (a b : JS.number) : JS.number :=
  match a, b with
  | JS.Fin p, JS.Fin q => if Qeq_bool q 0 then JS.div a b else round (p / q)
  | _, _ => JS.div a b
  end.

Definition sub (a b : JS.number) : JS.number :=
  match a, b with
  | JS.Fin p, JS.Fin q => round (p - q)
  | _, _ => JS.sub a b
  end.

(** The relative and the absolute rounding error: [2^-53] and half the
    subnormal spacing. *)
Definition eps : Q := 2 ^ (-53).
Definition tiny : Q := 2 ^ (-1075).

(** The conversion of a number to the IDL type [unsigned long]: not finite
    gives 0, otherwise the fraction is dropped and the integer taken modulo
    [2^32]. *)
Definition to_unsigned_long (a : JS.number) : Z :=
  match a with
  | JS.Fin q => (if Qle_bool 0 q then Qfloor q else Qceiling q) mod 2 ^ 32
  | _ => 0
  end.

(** [canvas.width = a] and [canvas.height = a] read back: the attribute
    reflects a content attribute that holds [0 .. 2^31 - 1], and takes its
    default (300 for the width, 150 for the height) for a larger value. *)
Definition canvas_size (default : Z) (a : JS.number) : Z :=
  let n := to_unsigned_long a in
  if n <=? 2147483647 then n else default.

End Binary64.

(** ** DOM and library values read by the handlers *)

(** The four integer attributes of an [HTMLImageElement] the code reads;
    the DOM gives them as non-negative integers. *)
Record HTMLImageElement : Type := {
  naturalWidth : Z;
  naturalHeight : Z;
  width : Z;
  height : Z
}.

(** [{ x: number, y: number }]. *)
Record Point : Type := { pt_x : JS.number; pt_y : JS.number }.

(** [PixelCrop] of react-image-crop, a rectangle in rendered pixels; [Crop]
    carries the same four numbers. *)
Record PixelCrop : Type := {
  crop_x : JS.number;
  crop_y : JS.number;
  crop_width : JS.number;
  crop_height : JS.number
}.

Definition Crop : Type := PixelCrop.

(** The click event as [handleImageClick] sees it: the pointer position in
    client coordinates, the image element it hit and the top-left corner of
    that element's bounding rectangle. *)
Record MouseEvent : Type := {
  clientX : Q;
  clientY : Q;
  currentTarget : HTMLImageElement;
  rect_left : Q;
  rect_top : Q
}.

Inductive Tab : Type :=
| tab_retouch | tab_freestyle | tab_background | tab_adjust | tab_filters
| tab_crop | tab_chat.

Definition Tab_eqb (a b : Tab) : bool :=
  match a, b with
  | tab_retouch, tab_retouch | tab_freestyle, tab_freestyle
  | tab_background, tab_background | tab_adjust, tab_adjust
  | tab_filters, tab_filters | tab_crop, tab_crop | tab_chat, tab_chat => true
  | _, _ => false
  end.

Inductive Role : Type := user | model.

Record ChatMessage : Type := { role : Role; text : string }.

(** ** [getCroppedImg]: what is done to the canvas *)

(** The nine arguments of [ctx.drawImage] after the image. *)
Record DrawImage : Type := {
  sx : JS.number; sy : JS.number; sWidth : JS.number; sHeight : JS.number;
  dx : JS.number; dy : JS.number; dWidth : JS.number; dHeight : JS.number
}.

(** The canvas when [getCroppedImg] reads it back: its dimensions after the
    last assignment, the transform set on the context and the one
    [drawImage] call. *)
Record Canvas : Type := {
  canvas_width : JS.number;
  canvas_height : JS.number;
  transform : JS.number * JS.number * JS.number * JS.number * JS.number * JS.number;
  drawn : DrawImage
}.

(** The body of [getCroppedImg] up to [canvas.toDataURL].  [has2d] tells
    whether [canvas.getContext('2d')] returned a context and
    [devicePixelRatio] is [window.devicePixelRatio]. *)
Definition getCroppedImg_canvas (has2d : bool) (devicePixelRatio : JS.number)
    (image : HTMLImageElement) (c : PixelCrop) : JS.Thrown + Canvas :=
  let scaleX :=
    Binary64.div (JS.of_Z (naturalWidth image)) (JS.of_Z (width image)) in
  let scaleY :=
    Binary64.div (JS.of_Z (naturalHeight image)) (JS.of_Z (height image)) in
  if negb has2d then inl (JS.ErrorObj "Could not get canvas context")
  else
    let pixelRatio := JS.or_else devicePixelRatio (JS.of_Z 1) in
    inr {| canvas_width :=
             JS.of_Z (Binary64.canvas_size 300
                        (Binary64.mul (crop_width c) pixelRatio));
           canvas_height :=
             JS.of_Z (Binary64.canvas_size 150
                        (Binary64.mul (crop_height c) pixelRatio));
           transform := (pixelRatio, JS.of_Z 0, JS.of_Z 0, pixelRatio,
                         JS.of_Z 0, JS.of_Z 0);
           drawn := {| sx := Binary64.mul (crop_x c) scaleX;
                       sy := Binary64.mul (crop_y c) scaleY;
                       sWidth := Binary64.mul (crop_width c) scaleX;
                       sHeight := Binary64.mul (crop_height c) scaleY;
                       dx := JS.of_Z 0;
                       dy := JS.of_Z 0;
                       dWidth := crop_width c;
                       dHeight := crop_height c |} |}.

(** The buffer size the specification words ask of a crop: the width and
    height of the natural-space rectangle, each times the density. *)
Definition natural_resolution (image : HTMLImageElement) (c : PixelCrop)
    (density : JS.number) (canvas : Canvas) : Prop :=
  let scaleX := JS.div (JS.of_Z (naturalWidth image)) (JS.of_Z (width image)) in
  let scaleY := JS.div (JS.of_Z (naturalHeight image)) (JS.of_Z (height image)) in
  JS.same (canvas_width canvas) (JS.mul (JS.mul (crop_width c) scaleX) density)
  /\ JS.same (canvas_height canvas)
       (JS.mul (JS.mul (crop_height c) scaleY) density).

(** ** Operation kinds and what the collaborator is handed *)

Inductive Kind : Type := Retouch | Filter | Adjustment | Background | Freestyle.

Record Request (File : Type) : Type := {
  operation : Kind;
  source : File;
  instruction : string;
  hotspot : option Point
}.

Arguments operation {File} _.
Arguments source {File} _.
Arguments instruction {File} _.
Arguments hotspot {File} _.

(** [`${prefix}${Date.now()}.png`]. *)
Definition fileName (prefix : string) (now : Z) : string :=
  (prefix ++ NilZero.string_of_int (Z.to_int now) ++ ".png")%string.

(** [err instanceof Error ? err.message : '...']. *)
Definition errorMessage (err : JS.Thrown) : string :=
  match err with
  | JS.ErrorObj m => m
  | JS.NotAnError => "发生未知错误。"
  end.

(** ** [dataURLtoFile]

    A JavaScript string is its sequence of UTF-16 code units.  [atob] is the
    browser's base64 decoder: the decoded binary string, or what it threw. *)

Module DataURL.

Definition jsstring : Type := list N.

(** The arguments [new File([u8arr], filename, {type: mime})] is given. *)
Record FileInit : Type := {
  bytes : list N;
  name : string;
  type : jsstring
}.

(** [str.split(',')]: the part before the first comma and the parts after
    it; the array is the first consed on the others. *)
Fixpoint split (str : jsstring) : jsstring * list jsstring :=
  match str with
  | [] => ([], [])
  | c :: rest =>
      let (first, others) := split rest in
      if (c =? 44)%N then ([], first :: others) else (c :: first, others)
  end.

(** The code units [.] does not match in a regular expression without
    flags: LF, CR, LS and PS. *)
Definition line_terminator (c : N) : bool :=
  ((c =? 10) || (c =? 13) || (c =? 8232) || (c =? 8233))%N.

(** [(.*?);] tried at one position: the shortest run of non-terminators
    that is followed by a semicolon. *)
Fixpoint lazy_to_semicolon (str : jsstring) : option jsstring :=
  match str with
  | [] => None
  | c :: rest =>
      if (c =? 59)%N then Some []
      else if line_terminator c then None
      else option_map (cons c) (lazy_to_semicolon rest)
  end.

(** [str.match(/:(.*?);/)], reduced to its first capture group: the match
    at the leftmost colon where one exists. *)
Fixpoint match_mime (str : jsstring) : option jsstring :=
  match str with
  | [] => None
  | c :: rest =>
      if (c =? 58)%N then
        match lazy_to_semicolon rest with
        | Some capture => Some capture
        | None => match_mime rest
        end
      else match_mime rest
  end.

(** [u8arr[i] = v] on an array that has index [i]; a [Uint8Array] keeps the
    value modulo 256. *)
Fixpoint store (i : nat) (v : N) (u8arr : list N) : list N :=
  match u8arr, i with
  | [], _ => []
  | _ :: rest, O => (v mod 256)%N :: rest
  | b :: rest, S j => b :: store j v rest
  end.

(** [while (n--) { u8arr[n] = bstr.charCodeAt(n); }]. *)
Fixpoint fill (bstr : jsstring) (n : nat) (u8arr : list N) : list N :=
  match n with
  | O => u8arr
  | S m => fill bstr m (store m (nth m bstr 0%N) u8arr)
  end.

Definition dataURLtoFile (atob : jsstring -> JS.Thrown + jsstring)
    (dataurl : jsstring) (filename : string) : JS.Thrown + FileInit :=
  let (first, others) := split dataurl in
  match others with
  | [] => inl (JS.ErrorObj "Invalid data URL")
  | second :: _ =>
      match match_mime first with
      | None | Some [] =>
          inl (JS.ErrorObj "Could not parse MIME type from data URL")
      | Some mime =>
          match atob second with
          | inl err => inl err
          | inr bstr =>
              let n := List.length bstr in
              inr {| bytes := fill bstr n (repeat 0%N n);
                     name := filename;
                     type := mime |}
          end
      end
  end.

(** The code units of an ASCII text. *)
Definition units (text : string) : jsstring :=
  map (fun c => N.of_nat (Ascii.nat_of_ascii c)) (list_ascii_of_string text).

(** [dataURLtoFile] on a data URL given as an ASCII text. *)
Definition of_text (atob : jsstring -> JS.Thrown + jsstring)
    (dataurl filename : string) : JS.Thrown + FileInit :=
  dataURLtoFile atob (units dataurl) filename.

End DataURL.

(** ** [ImagePreviewModal]: zoom and pan of the preview

    Sums, products and quotients are exact here; the properties proved of
    these handlers are the range of the scale and what a pointer move
    changes, not the exact offsets. *)

Module Preview.

(** [{ scale, x, y }]. *)
Record Transform : Type := {
  scale : JS.number;
  x : JS.number;
  y : JS.number
}.

(** The [transform] and [isDragging] states and the [lastMousePosition]
    ref. *)
Record View : Type := {
  transform : Transform;
  isDragging : bool;
  lastMousePosition : Q * Q
}.

Definition initial : View :=
  {| transform := {| scale := JS.of_Z 1; x := JS.of_Z 0; y := JS.of_Z 0 |};
     isDragging := false;
     lastMousePosition := (0, 0)%Q |}.

Record WheelEvent : Type := {
  deltaY : Q;
  wheelX : Q;
  wheelY : Q
}.

(** [handleWheel]; [container] is the top-left corner of
    [containerRef.current.getBoundingClientRect()], when the ref is set. *)
Definition handleWheel (e : WheelEvent) (container : option (Q * Q))
    (v : View) : View :=
  match container with
  | None => v
  | Some (rectLeft, rectTop) =>
      let t := transform v in
      let scaleAmount := JS.mul (JS.Fin (- deltaY e)) (JS.Fin (1 # 1000)) in
      let newScale :=
        JS.Math_min
          (JS.Math_max (JS.Fin (1 # 10)) (JS.add (scale t) scaleAmount))
          (JS.of_Z 10) in
      let mouseX := JS.Fin (wheelX e - rectLeft) in
      let mouseY := JS.Fin (wheelY e - rectTop) in
      let newX :=
        JS.sub mouseX (JS.mul (JS.sub mouseX (x t)) (JS.div newScale (scale t))) in
      let newY :=
        JS.sub mouseY (JS.mul (JS.sub mouseY (y t)) (JS.div newScale (scale t))) in
      {| transform := {| scale := newScale; x := newX; y := newY |};
         isDragging := isDragging v;
         lastMousePosition := lastMousePosition v |}
  end.

Definition handleMouseDown (clientX clientY : Q) (v : View) : View :=
  {| transform := transform v;
     isDragging := true;
     lastMousePosition := (clientX, clientY) |}.

Definition handleMouseMove (clientX clientY : Q) (v : View) : View :=
  if negb (isDragging v) then v
  else
    let dx := (clientX - fst (lastMousePosition v))%Q in
    let dy := (clientY - snd (lastMousePosition v))%Q in
    let prev := transform v in
    {| transform := {| scale := scale prev;
                       x := JS.add (x prev) (JS.Fin dx);
                       y := JS.add (y prev) (JS.Fin dy) |};
       isDragging := isDragging v;
       lastMousePosition := (clientX, clientY) |}.

Definition handleMouseUpOrLeave (v : View) : View :=
  {| transform := transform v;
     isDragging := false;
     lastMousePosition := lastMousePosition v |}.

Definition handleReset (v : View) : View :=
  {| transform := {| scale := JS.of_Z 1; x := JS.of_Z 0; y := JS.of_Z 0 |};
     isDragging := isDragging v;
     lastMousePosition := lastMousePosition v |}.

Inductive Event : Type :=
| Wheel (e : WheelEvent) (container : option (Q * Q))
| MouseDown (clientX clientY : Q)
| MouseMove (clientX clientY : Q)
| MouseUpOrLeave
| Reset.

Definition step (v : View) (ev : Event) : View :=
  match ev with
  | Wheel e container => handleWheel e container v
  | MouseDown clientX clientY => handleMouseDown clientX clientY v
  | MouseMove clientX clientY => handleMouseMove clientX clientY v
  | MouseUpOrLeave => handleMouseUpOrLeave v
  | Reset => handleReset v
  end.

Definition run (events : list Event) (v : View) : View :=
  fold_left step events v.

(** The pointer moves of one drag, in order. *)
Definition drag (moves : list (Q * Q)) (v : View) : View :=
  fold_left (fun w m => handleMouseMove (fst m) (snd m) w) moves v.

(** The transform is made of finite numbers and its scale lies between
    one tenth and ten. *)
Definition bounded (t : Transform) : Prop :=
  exists s a b : Q,
    t = {| scale := JS.Fin s; x := JS.Fin a; y := JS.Fin b |}
    /\ ((1 # 10) <= s <= 10)%Q.

End Preview.

(** ** A concrete instance for the examples

    Files are named by strings, [trim] strips ASCII white space and the
    conversion of a data URL accepts what starts with ["data:"]. *)

Module Sample.

Definition File : Type := string.

Definition is_space (c : Ascii.ascii) : bool :=
  let n := Ascii.nat_of_ascii c in
  ((9 <=? n)%nat && (n <=? 13)%nat) || (n =? 32)%nat.

Fixpoint trim_left (t : string) : string :=
  match t with
  | String c rest => if is_space c then trim_left rest else t
  | EmptyString => EmptyString
  end.

Fixpoint reverse (t acc : string) : string :=
  match t with
  | String c rest => reverse rest (String c acc)
  | EmptyString => acc
  end.

Definition trim (t : string) : string :=
  reverse (trim_left (reverse (trim_left t) "")) "".

Definition dataURLtoFile (dataurl filename : string) : JS.Thrown + File :=
  if String.prefix "data:" dataurl then inr filename
  else inl (JS.ErrorObj "Invalid data URL").

Definition toDataURL (_ : Canvas) : string := "data:image/png;base64,".

(** A base64 decoder for padded input, in the place of [atob]. *)
Definition sextet (c : N) : option N :=
  if ((65 <=? c) && (c <=? 90))%N then Some (c - 65)%N
  else if ((97 <=? c) && (c <=? 122))%N then Some (c - 71)%N
  else if ((48 <=? c) && (c <=? 57))%N then Some (c + 4)%N
  else if (c =? 43)%N then Some 62%N
  else if (c =? 47)%N then Some 63%N
  else None.

Definition invalid : JS.Thrown + DataURL.jsstring :=
  inl (JS.ErrorObj "The string to be decoded is not correctly encoded.").

Fixpoint atob (text : DataURL.jsstring) : JS.Thrown + DataURL.jsstring :=
  match text with
  | [] => inr []
  | c1 :: c2 :: c3 :: c4 :: rest =>
      match sextet c1, sextet c2 with
      | Some a, Some b =>
          let byte1 := (a * 4 + b / 16)%N in
          if ((c3 =? 61) && (c4 =? 61))%N then
            match rest with [] => inr [byte1] | _ => invalid end
          else
            match sextet c3 with
            | Some c =>
                let byte2 := ((b mod 16) * 16 + c / 4)%N in
                if (c4 =? 61)%N then
                  match rest with [] => inr [byte1; byte2] | _ => invalid end
                else
                  match sextet c4, atob rest with
                  | Some d, inr more =>
                      inr (byte1 :: byte2 :: ((c mod 4) * 64 + d)%N :: more)
                  | _, _ => invalid
                  end
            | None => invalid
            end
      | _, _ => invalid
      end
  | _ => invalid
  end.

(** An image of 100x200 natural pixels shown at 50x100. *)
Definition halved : HTMLImageElement :=
  {| naturalWidth := 100; naturalHeight := 200; width := 50; height := 100 |}.

End Sample.

(** ** The component state of [App] and its handlers *)

Section App.

(** A [File] is opaque to the handlers. *)
Context {File : Type}.

(** [String.prototype.trim]. *)
Variable trim : string -> string.

(** [dataURLtoFile(dataurl, filename)]: the file, or what it threw. *)
Variable dataURLtoFile : string -> string -> JS.Thrown + File.

(** [canvas.toDataURL('image/png')]. *)
Variable toDataURL : Canvas -> string.

Record State : Type := {
  history : list File;
  historyIndex : Z;
  prompt : string;
  isLoading : bool;
  error : option string;
  editHotspot : option Point;
  displayHotspot : option Point;
  activeTab : Tab;
  crop : option Crop;
  completedCrop : option PixelCrop;
  isPreviewOpen : bool;
  chatHistory : list ChatMessage
}.

(** The [useState] initial values. *)
Definition initial : State :=
  {| history := []; historyIndex := -1; prompt := ""; isLoading := false;
     error := None; editHotspot := None; displayHotspot := None;
     activeTab := tab_retouch; crop := None; completedCrop := None;
     isPreviewOpen := false; chatHistory := [] |}.

Definition setHistory (v : list File) (s : State) : State :=
  {| history := v; historyIndex := historyIndex s; prompt := prompt s;
     isLoading := isLoading s; error := error s;
     editHotspot := editHotspot s; displayHotspot := displayHotspot s;
     activeTab := activeTab s; crop := crop s;
     completedCrop := completedCrop s; isPreviewOpen := isPreviewOpen s;
     chatHistory := chatHistory s |}.

Definition setHistoryIndex (v : Z) (s : State) : State :=
  {| history := history s; historyIndex := v; prompt := prompt s;
     isLoading := isLoading s; error := error s;
     editHotspot := editHotspot s; displayHotspot := displayHotspot s;
     activeTab := activeTab s; crop := crop s;
     completedCrop := completedCrop s; isPreviewOpen := isPreviewOpen s;
     chatHistory := chatHistory s |}.

Definition setPrompt (v : string) (s : State) : State :=
  {| history := history s; historyIndex := historyIndex s; prompt := v;
     isLoading := isLoading s; error := error s;
     editHotspot := editHotspot s; displayHotspot := displayHotspot s;
     activeTab := activeTab s; crop := crop s;
     completedCrop := completedCrop s; isPreviewOpen := isPreviewOpen s;
     chatHistory := chatHistory s |}.

Definition setIsLoading (v : bool) (s : State) : State :=
  {| history := history s; historyIndex := historyIndex s;
     prompt := prompt s; isLoading := v; error := error s;
     editHotspot := editHotspot s; displayHotspot := displayHotspot s;
     activeTab := activeTab s; crop := crop s;
     completedCrop := completedCrop s; isPreviewOpen := isPreviewOpen s;
     chatHistory := chatHistory s |}.

Definition setError (v : option string) (s : State) : State :=
  {| history := history s; historyIndex := historyIndex s;
     prompt := prompt s; isLoading := isLoading s; error := v;
     editHotspot := editHotspot s; displayHotspot := displayHotspot s;
     activeTab := activeTab s; crop := crop s;
     completedCrop := completedCrop s; isPreviewOpen := isPreviewOpen s;
     chatHistory := chatHistory s |}.

Definition setEditHotspot (v : option Point) (s : State) : State :=
  {| history := history s; historyIndex := historyIndex s;
     prompt := prompt s; isLoading := isLoading s; error := error s;
     editHotspot := v; displayHotspot := displayHotspot s;
     activeTab := activeTab s; crop := crop s;
     completedCrop := completedCrop s; isPreviewOpen := isPreviewOpen s;
     chatHistory := chatHistory s |}.

Definition setDisplayHotspot (v : option Point) (s : State) : State :=
  {| history := history s; historyIndex := historyIndex s;
     prompt := prompt s; isLoading := isLoading s; error := error s;
     editHotspot := editHotspot s; displayHotspot := v;
     activeTab := activeTab s; crop := crop s;
     completedCrop := completedCrop s; isPreviewOpen := isPreviewOpen s;
     chatHistory := chatHistory s |}.

Definition setActiveTab (v : Tab) (s : State) : State :=
  {| history := history s; historyIndex := historyIndex s;
     prompt := prompt s; isLoading := isLoading s; error := error s;
     editHotspot := editHotspot s; displayHotspot := displayHotspot s;
     activeTab := v; crop := crop s;
     completedCrop := completedCrop s; isPreviewOpen := isPreviewOpen s;
     chatHistory := chatHistory s |}.

Definition setCrop (v : option Crop) (s : State) : State :=
  {| history := history s; historyIndex := historyIndex s;
     prompt := prompt s; isLoading := isLoading s; error := error s;
     editHotspot := editHotspot s; displayHotspot := displayHotspot s;
     activeTab := activeTab s; crop := v;
     completedCrop := completedCrop s; isPreviewOpen := isPreviewOpen s;
     chatHistory := chatHistory s |}.

Definition setCompletedCrop (v : option PixelCrop) (s : State) : State :=
  {| history := history s; historyIndex := historyIndex s;
     prompt := prompt s; isLoading := isLoading s; error := error s;
     editHotspot := editHotspot s; displayHotspot := displayHotspot s;
     activeTab := activeTab s; crop := crop s;
     completedCrop := v; isPreviewOpen := isPreviewOpen s;
     chatHistory := chatHistory s |}.

Definition setIsPreviewOpen (v : bool) (s : State) : State :=
  {| history := history s; historyIndex := historyIndex s;
     prompt := prompt s; isLoading := isLoading s; error := error s;
     editHotspot := editHotspot s; displayHotspot := displayHotspot s;
     activeTab := activeTab s; crop := crop s;
     completedCrop := completedCrop s; isPreviewOpen := v;
     chatHistory := chatHistory s |}.

Definition setChatHistory (v : list ChatMessage) (s : State) : State :=
  {| history := history s; historyIndex := historyIndex s;
     prompt := prompt s; isLoading := isLoading s; error := error s;
     editHotspot := editHotspot s; displayHotspot := displayHotspot s;
     activeTab := activeTab s; crop := crop s;
     completedCrop := completedCrop s; isPreviewOpen := isPreviewOpen s;
     chatHistory := v |}.

(** Values derived on every render. *)
Definition currentImage (s : State) : option File :=
  JS.get (history s) (historyIndex s).

Definition originalImage (s : State) : option File := JS.get (history s) 0.

Definition canUndo (s : State) : bool := 0 <? historyIndex s.

Definition canRedo (s : State) : bool :=
  historyIndex s <? Z.of_nat (List.length (history s)) - 1.

(** *** Version history *)

(** [addImageToHistory], created in the render whose state is [r] (it reads
    [history] and [historyIndex] from there) and run on state [s]. *)
Definition addImageToHistory (r : State) (newImageFile : File) (s : State)
    : State :=
  let newHistory :=
    JS.slice (history r) 0 (historyIndex r + 1) ++ [newImageFile] in
  setCompletedCrop None
    (setCrop None
       (setHistoryIndex (Z.of_nat (List.length newHistory) - 1)
          (setHistory newHistory s))).

Definition handleImageUpload (file : File) (s : State) : State :=
  setChatHistory []
    (setCompletedCrop None
       (setCrop None
          (setActiveTab tab_retouch
             (setDisplayHotspot None
                (setEditHotspot None
                   (setHistoryIndex 0
                      (setHistory [file]
                         (setError None s)))))))).

Definition handleUndo (s : State) : State :=
  if canUndo s then setHistoryIndex (historyIndex s - 1) s else s.

Definition handleRedo (s : State) : State :=
  if canRedo s then setHistoryIndex (historyIndex s - 1) s else s.

(** *** Pointer to natural coordinates *)

(** [handleImageClick] with exact differences, quotients and products:
    what it yields on a zero-sized axis, outside the retouch tab, and the
    bounds and tolerances on the hotspot hold of the rounded results too.
    [handleImageClick_binary64] below has the rounding. *)
Definition handleImageClick (e : MouseEvent) (s : State) : State :=
  if Tab_eqb (activeTab s) tab_retouch then
    let img := currentTarget e in
    let scaleX := JS.div (JS.of_Z (naturalWidth img)) (JS.of_Z (width img)) in
    let scaleY := JS.div (JS.of_Z (naturalHeight img)) (JS.of_Z (height img)) in
    let clientX := JS.Fin (clientX e - rect_left e) in
    let clientY := JS.Fin (clientY e - rect_top e) in
    let naturalX := JS.Math_round (JS.mul clientX scaleX) in
    let naturalY := JS.Math_round (JS.mul clientY scaleY) in
    setError None
      (setDisplayHotspot (Some {| pt_x := clientX; pt_y := clientY |})
         (setEditHotspot (Some {| pt_x := naturalX; pt_y := naturalY |}) s))
  else if negb (Tab_eqb (activeTab s) tab_crop) then setIsPreviewOpen true s
  else s.

(** [handleImageClick] with the arithmetic of the code: the difference,
    the quotient and the product are each rounded to binary64. *)
Definition handleImageClick_binary64 (e : MouseEvent) (s : State) : State :=
  if Tab_eqb (activeTab s) tab_retouch then
    let img := currentTarget e in
    let scaleX :=
      Binary64.div (JS.of_Z (naturalWidth img)) (JS.of_Z (width img)) in
    let scaleY :=
      Binary64.div (JS.of_Z (naturalHeight img)) (JS.of_Z (height img)) in
    let clientX := Binary64.sub (JS.Fin (clientX e)) (JS.Fin (rect_left e)) in
    let clientY := Binary64.sub (JS.Fin (clientY e)) (JS.Fin (rect_top e)) in
    let naturalX := JS.Math_round (Binary64.mul clientX scaleX) in
    let naturalY := JS.Math_round (Binary64.mul clientY scaleY) in
    setError None
      (setDisplayHotspot (Some {| pt_x := clientX; pt_y := clientY |})
         (setEditHotspot (Some {| pt_x := naturalX; pt_y := naturalY |}) s))
  else if negb (Tab_eqb (activeTab s) tab_crop) then setIsPreviewOpen true s
  else s.

(** *** Crop *)

Definition getCroppedImg (has2d : bool) (devicePixelRatio : JS.number)
    (image : HTMLImageElement) (c : PixelCrop) : JS.Thrown + string :=
  match getCroppedImg_canvas has2d devicePixelRatio image c with
  | inl err => inl err
  | inr canvas => inr (toDataURL canvas)
  end.

(** [handleCrop]; [imgRef] is [imgRef.current]. *)
Definition handleCrop (imgRef : option HTMLImageElement) (has2d : bool)
    (devicePixelRatio : JS.number) (now : Z) (s : State) : State :=
  match completedCrop s, imgRef with
  | Some c, Some image =>
      let attempt :=
        match getCroppedImg has2d devicePixelRatio image c with
        | inl err => inl err
        | inr croppedImageUrl =>
            dataURLtoFile croppedImageUrl (fileName "cropped-" now)
        end in
      match attempt with
      | inr newImageFile => addImageToHistory s newImageFile s
      | inl err =>
          setError (Some ("裁剪图片失败。 " ++ errorMessage err)%string) s
      end
  | _, _ => setError (Some "请先选择一个裁剪区域。") s
  end.

(** *** The asynchronous handlers *)

(** The [try] block up to [addImageToHistory]: the awaited reply of the
    collaborator (a data URL, or what the call threw) turned into a file. *)
Definition awaited_file (reply : JS.Thrown + string) (prefix : string)
    (now : Z) : JS.Thrown + File :=
  match reply with
  | inl err => inl err
  | inr url => dataURLtoFile url (fileName prefix now)
  end.

(** [handleGenerate] up to its [await]. *)
Definition handleGenerate_start (s : State) : State * option (Request File) :=
  match currentImage s with
  | None => (setError (Some "没有加载可编辑的图片。") s, None)
  | Some image =>
      if JS.empty_string (trim (prompt s)) then
        (setError (Some "请输入您想如何编辑的描述。") s, None)
      else
        match editHotspot s with
        | None => (setError (Some "请在图片上点击以选择一个编辑区域。") s, None)
        | Some spot =>
            (setError None (setIsLoading true s),
             Some {| operation := Retouch; source := image;
                     instruction := prompt s; hotspot := Some spot |})
        end
  end.

(** [handleGenerate] from its [await] on; [r] is the render the handler
    was created in and [s] the state when the reply arrives. *)
Definition handleGenerate_finish (r : State) (reply : JS.Thrown + string)
    (now : Z) (s : State) : State :=
  setIsLoading false
    match awaited_file reply "edited-" now with
    | inr newImageFile =>
        setPrompt ""
          (setDisplayHotspot None
             (setEditHotspot None (addImageToHistory r newImageFile s)))
    | inl err =>
        setError (Some ("生成图片失败。 " ++ errorMessage err)%string) s
    end.

(** The shape shared by [handleApplyFilter], [handleApplyAdjustment],
    [handleApplyBackground] and [handleApplyFreestyle], which differ in
    the collaborator called and in three strings. *)
Definition apply_start (k : Kind) (noImage : string) (p : string)
    (s : State) : State * option (Request File) :=
  match currentImage s with
  | None => (setError (Some noImage) s, None)
  | Some image =>
      (setError None (setIsLoading true s),
       Some {| operation := k; source := image; instruction := p;
               hotspot := None |})
  end.

Definition apply_finish (failed prefix : string) (r : State)
    (reply : JS.Thrown + string) (now : Z) (s : State) : State :=
  setIsLoading false
    match awaited_file reply prefix now with
    | inr newImageFile => addImageToHistory r newImageFile s
    | inl err => setError (Some (failed ++ errorMessage err)%string) s
    end.

Definition handleApplyFilter_start : string -> State -> _ :=
  apply_start Filter "没有加载可应用滤镜的图片。".
Definition handleApplyFilter_finish : State -> _ :=
  apply_finish "应用滤镜失败。 " "filtered-".

Definition handleApplyAdjustment_start : string -> State -> _ :=
  apply_start Adjustment "没有加载可应用调整的图片。".
Definition handleApplyAdjustment_finish : State -> _ :=
  apply_finish "应用调整失败。 " "adjusted-".

Definition handleApplyBackground_start : string -> State -> _ :=
  apply_start Background "没有加载可更换背景的图片。".
Definition handleApplyBackground_finish : State -> _ :=
  apply_finish "更换背景失败。 " "background-".

Definition handleApplyFreestyle_start : string -> State -> _ :=
  apply_start Freestyle "没有加载可应用调整的图片。".
Definition handleApplyFreestyle_finish : State -> _ :=
  apply_finish "自由创作失败。 " "freestyle-".

(** The five mutating operations under one name.  [p] is the instruction
    the panel passes; retouch reads [prompt] from the state instead. *)
Definition start (k : Kind) (p : string) (s : State)
    : State * option (Request File) :=
  match k with
  | Retouch => handleGenerate_start s
  | Filter => handleApplyFilter_start p s
  | Adjustment => handleApplyAdjustment_start p s
  | Background => handleApplyBackground_start p s
  | Freestyle => handleApplyFreestyle_start p s
  end.

Definition finish (k : Kind) (r : State) (reply : JS.Thrown + string)
    (now : Z) (s : State) : State :=
  match k with
  | Retouch => handleGenerate_finish r reply now s
  | Filter => handleApplyFilter_finish r reply now s
  | Adjustment => handleApplyAdjustment_finish r reply now s
  | Background => handleApplyBackground_finish r reply now s
  | Freestyle => handleApplyFreestyle_finish r reply now s
  end.

Definition filePrefix (k : Kind) : string :=
  match k with
  | Retouch => "edited-"
  | Filter => "filtered-"
  | Adjustment => "adjusted-"
  | Background => "background-"
  | Freestyle => "freestyle-"
  end.

Definition failurePrefix (k : Kind) : string :=
  match k with
  | Retouch => "生成图片失败。 "
  | Filter => "应用滤镜失败。 "
  | Adjustment => "应用调整失败。 "
  | Background => "更换背景失败。 "
  | Freestyle => "自由创作失败。 "
  end.

(** *** Completions: every path that reaches [addImageToHistory] *)

(** Either the reply to an operation of kind [k] begun in render [r], or a
    crop committed with the given image element, canvas context and
    density. *)
Inductive Completion : Type :=
| Replied (k : Kind) (r : State) (reply : JS.Thrown + string)
| Cropped (imgRef : option HTMLImageElement) (has2d : bool)
          (devicePixelRatio : JS.number).

Definition complete (c : Completion) (now : Z) (s : State) : State :=
  match c with
  | Replied k r reply => finish k r reply now s
  | Cropped imgRef has2d devicePixelRatio =>
      handleCrop imgRef has2d devicePixelRatio now s
  end.

(** The render whose history the completion appends to. *)
Definition render_of (c : Completion) (s : State) : State :=
  match c with
  | Replied _ r _ => r
  | Cropped _ _ _ => s
  end.

(** The file the completion hands to [addImageToHistory], when nothing
    before that call throws or returns early. *)
Definition appended (c : Completion) (now : Z) (s : State) : option File :=
  match c with
  | Replied k _ reply =>
      match awaited_file reply (filePrefix k) now with
      | inr file => Some file
      | inl _ => None
      end
  | Cropped imgRef has2d devicePixelRatio =>
      match completedCrop s, imgRef with
      | Some c, Some image =>
          match getCroppedImg has2d devicePixelRatio image c with
          | inr url =>
              match dataURLtoFile url (fileName "cropped-" now) with
              | inr file => Some file
              | inl _ => None
              end
          | inl _ => None
          end
      | _, _ => None
      end
  end.

(** *** Submit controls *)

(** The retouch button of [App.tsx]:
    [disabled={isLoading || !prompt.trim() || !editHotspot}]. *)
Definition generate_disabled (s : State) : bool :=
  isLoading s || JS.empty_string (trim (prompt s))
  || match editHotspot s with None => true | Some _ => false end.

(** A click on a button reaches [onClick] only when it is enabled. *)
Definition click_generate (s : State) : State * option (Request File) :=
  if generate_disabled s then (s, None) else handleGenerate_start s.

(** [FreestylePanel] (components/ToolOptions.tsx) and [BackgroundPanel]
    have the same shape; [p] is the panel's own prompt, [onApply] the
    handler it was given. *)
Definition panel_handleApply (onApply : string -> State -> State * option (Request File))
    (p : string) (s : State) : State * option (Request File) :=
  if negb (JS.empty_string (trim p)) then onApply p s else (s, None).

Definition panel_disabled (loading : bool) (p : string) : bool :=
  loading || JS.empty_string (trim p).

Definition click_freestyle (p : string) (s : State)
    : State * option (Request File) :=
  if panel_disabled (isLoading s) p then (s, None)
  else panel_handleApply handleApplyFreestyle_start p s.

Definition click_background (p : string) (s : State)
    : State * option (Request File) :=
  if panel_disabled (isLoading s) p then (s, None)
  else panel_handleApply handleApplyBackground_start p s.

(** The undo and redo buttons:
    [disabled={!canUndo || isLoading}], [disabled={!canRedo || isLoading}]. *)
Definition click_undo (s : State) : State :=
  if negb (canUndo s) || isLoading s then s else handleUndo s.

Definition click_redo (s : State) : State :=
  if negb (canRedo s) || isLoading s then s else handleRedo s.

(** *** Sequences of history operations *)

Inductive Op : Type :=
| Upload (file : File)
| Append (file : File)
| Undo
| Redo.

Definition step (s : State) (o : Op) : State :=
  match o with
  | Upload file => handleImageUpload file s
  | Append file => addImageToHistory s file s
  | Undo => handleUndo s
  | Redo => handleRedo s
  end.

Definition run (ops : list Op) (s : State) : State := fold_left step ops s.

(** The cursor invariant: [0 <= cursor < length] whenever [length > 0]. *)
Definition cursor_in_range (s : State) : Prop :=
  (0 < List.length (history s))%nat ->
  0 <= historyIndex s < Z.of_nat (List.length (history s)).

(** *** Round trip of the coordinate mapping *)




(** *** File selection *)

(** [handleFileSelect]; [files] is the [FileList], or [null]. *)
Definition handleFileSelect (files : option (list File)) (s : State) : State :=
  match files with
  | Some (first :: _) => handleImageUpload first s
  | Some [] | None => s
  end.

(** *** Chat *)

(** The state of [App] with [isChatLoading] beside it. *)
Record ChatView : Type := {
  session : State;
  isChatLoading : bool
}.

(** [handleSendMessage] up to its [await]: the new view and the message
    handed to [generateChatResponse]. *)
Definition handleSendMessage_start (message : string) (v : ChatView)
    : ChatView * string :=
  let updatedChatHistory :=
    chatHistory (session v) ++ [{| role := user; text := message |}] in
  ({| session := setChatHistory updatedChatHistory (setError None (session v));
      isChatLoading := true |},
   message).

(** [handleSendMessage] from its [await] on; [r] is the render the handler
    was created in, from which [updatedChatHistory] was computed. *)
Definition handleSendMessage_finish (r : ChatView) (message : string)
    (reply : JS.Thrown + string) (v : ChatView) : ChatView :=
  let updatedChatHistory :=
    chatHistory (session r) ++ [{| role := user; text := message |}] in
  {| session :=
       match reply with
       | inr responseText =>
           setChatHistory
             (updatedChatHistory ++ [{| role := model; text := responseText |}])
             (session v)
       | inl err =>
           setChatHistory updatedChatHistory
             (setError (Some ("聊天时发生错误。 " ++ errorMessage err)%string)
                (session v))
       end;
     isChatLoading := false |}.

(** [ChatPanel]'s [handleSubmit]; [inputMessage] is the panel's own state.
    Gives the new view, the message passed to [onSendMessage] if any, and
    the new [inputMessage]. *)
Definition ChatPanel_handleSubmit (inputMessage : string) (v : ChatView)
    : ChatView * option string * string :=
  if negb (JS.empty_string (trim inputMessage)) && negb (isChatLoading v) then
    let (v', sent) := handleSendMessage_start inputMessage v in
    (v', Some sent, "")
  else (v, None, inputMessage).

(** One turn of the conversation: a submit and, when a message was sent,
    the reply to it. *)
Definition exchange (v : ChatView) (turn : string * (JS.Thrown + string))
    : ChatView :=
  match ChatPanel_handleSubmit (fst turn) v with
  | (v1, Some message, _) => handleSendMessage_finish v message (snd turn) v1
  | (v1, None, _) => v1
  end.

Definition converse (turns : list (string * (JS.Thrown + string)))
    (v : ChatView) : ChatView :=
  fold_left exchange turns v.

(** Every message of the model comes right after a message of the user;
    [after_user] tells whether the message before the list is one. *)
Fixpoint replies_follow (after_user : bool) (l : list ChatMessage) : bool :=
  match l with
  | [] => true
  | m :: rest =>
      match role m with
      | user => replies_follow true rest
      | model => after_user && replies_follow false rest
      end
  end.

(** ** Properties *)

(** *** Rounding to binary64 *)

Lemma nearest_even_close (q : Q) :
  (Qabs (inject_Z (Binary64.nearest_even q) - q) <= 1 # 2)%Q.
Proof.
  unfold Binary64.nearest_even.
  pose proof (Qfloor_le q) as Hlo. pose proof (Qlt_floor q) as Hhi.
  rewrite inject_Z_plus in Hhi. change (inject_Z 1) with 1%Q in Hhi.
  apply Qabs_Qle_condition.
  destruct (q - inject_Z (Qfloor q) ?= 1 # 2)%Q eqn:E.
  - apply Qeq_alt in E.
    destruct (Z.even (Qfloor q));
      [| rewrite inject_Z_plus; change (inject_Z 1) with 1%Q]; split; lra.
  - apply Qlt_alt in E. split; lra.
  - apply Qgt_alt in E. rewrite inject_Z_plus. change (inject_Z 1) with 1%Q.
    split; lra.
Qed.

Lemma nearest_even_comp (p q : Q) :
  (p == q)%Q -> Binary64.nearest_even p = Binary64.nearest_even q.
Proof.
  intros E. unfold Binary64.nearest_even. rewrite (Qfloor_comp p q E).
  assert (Hc : (p - inject_Z (Qfloor q) ?= 1 # 2)%Q
               = (q - inject_Z (Qfloor q) ?= 1 # 2)%Q)
    by (apply Qcompare_comp; [now rewrite E | reflexivity]).
  now rewrite Hc.
Qed.

Lemma nearest_even_Z (k : Z) : Binary64.nearest_even (inject_Z k) = k.
Proof.
  unfold Binary64.nearest_even. rewrite Qfloor_Z.
  assert (E : (inject_Z k - inject_Z k ?= 1 # 2)%Q = Lt).
  { apply (proj1 (Qlt_alt _ _)). generalize (inject_Z k). intros x. lra. }
  now rewrite E.
Qed.

Lemma nearest_even_nonneg (q : Q) :
  (0 <= q)%Q -> 0 <= Binary64.nearest_even q.
Proof.
  intros Hq. unfold Binary64.nearest_even.
  assert (Hf : 0 <= Qfloor q)
    by (change 0 with (Qfloor 0); now apply Qfloor_resp_le).
  destruct (q - inject_Z (Qfloor q) ?= 1 # 2)%Q;
    [destruct (Z.even (Qfloor q)) | |]; lia.
Qed.

Lemma two_power_pos (e : Z) : (0 < 2 ^ e)%Q.
Proof. apply Qpower_0_lt. reflexivity. Qed.

Lemma exponent_le (q : Q) : (0 < q)%Q -> (2 ^ Binary64.exponent q <= q)%Q.
Proof.
  intros Hq. unfold Binary64.exponent.
  set (a := Z.log2 (Qnum q)). set (b := Z.log2 (Z.pos (Qden q))).
  destruct (Qle_bool (2 ^ (a - b)) q) eqn:E; [now apply Qle_bool_iff |].
  clear E. destruct q as [n d]. cbn [Qnum Qden] in *.
  assert (Hn : 0 < n) by (unfold Qlt in Hq; cbn in Hq; lia).
  destruct (Z.log2_spec n Hn) as [Hlo _]. fold a in Hlo.
  destruct (Z.log2_spec (Z.pos d) (Pos2Z.is_pos d)) as [_ Hhi]. fold b in Hhi.
  assert (Ha : 0 <= a) by apply Z.log2_nonneg.
  assert (Hb : 0 <= b) by apply Z.log2_nonneg.
  replace (a - b - 1) with (a - (b + 1)) by lia.
  rewrite Qpower_minus by discriminate.
  rewrite <- !(Zpower_Qpower 2) by lia.
  rewrite (Qmake_Qdiv n d).
  apply Qle_shift_div_l;
    [change 0%Q with (inject_Z 0); rewrite <- Zlt_Qlt; apply Pos2Z.is_pos |].
  unfold Qdiv. rewrite <- Qmult_assoc, (Qmult_comm (/ _)), Qmult_assoc.
  apply Qle_shift_div_r;
    [change 0%Q with (inject_Z 0); rewrite <- Zlt_Qlt;
     apply Z.pow_pos_nonneg; lia |].
  rewrite <- !inject_Z_mult, <- Zle_Qle.
  replace (Z.succ b) with (b + 1) in Hhi by lia. nia.
Qed.

(** [exponent] is the binary exponent: [2^e <= q < 2^(e+1)]. *)
Lemma exponent_lt (q : Q) :
  (0 < q)%Q -> (q < 2 ^ (Binary64.exponent q + 1))%Q.
Proof.
  intros Hq. unfold Binary64.exponent.
  set (a := Z.log2 (Qnum q)). set (b := Z.log2 (Z.pos (Qden q))).
  destruct (Qle_bool (2 ^ (a - b)) q) eqn:E.
  - clear E. destruct q as [n d]. cbn [Qnum Qden] in *.
    assert (Hn : 0 < n) by (unfold Qlt in Hq; cbn in Hq; lia).
    destruct (Z.log2_spec n Hn) as [_ Hhi]. fold a in Hhi.
    destruct (Z.log2_spec (Z.pos d) (Pos2Z.is_pos d)) as [Hlo _]. fold b in Hlo.
    assert (Ha : 0 <= a) by apply Z.log2_nonneg.
    assert (Hb : 0 <= b) by apply Z.log2_nonneg.
    replace (a - b + 1) with (a + 1 - b) by lia.
    rewrite Qpower_minus by discriminate.
    rewrite <- !(Zpower_Qpower 2) by lia.
    rewrite (Qmake_Qdiv n d).
    apply Qlt_shift_div_r;
      [change 0%Q with (inject_Z 0); rewrite <- Zlt_Qlt; apply Pos2Z.is_pos |].
    unfold Qdiv. rewrite <- Qmult_assoc, (Qmult_comm (/ _)), Qmult_assoc.
    apply Qlt_shift_div_l;
      [change 0%Q with (inject_Z 0); rewrite <- Zlt_Qlt;
       apply Z.pow_pos_nonneg; lia |].
    rewrite <- !inject_Z_mult, <- Zlt_Qlt.
    replace (Z.succ a) with (a + 1) in Hhi by lia.
    assert (0 < 2 ^ b) by (apply Z.pow_pos_nonneg; lia). nia.
  - replace (a - b - 1 + 1) with (a - b) by lia.
    apply Qnot_le_lt. intros Hle. apply Qle_bool_iff in Hle. congruence.
Qed.

Lemma eps_tiny :
  (Binary64.eps == 1 # 9007199254740992
   /\ 0 < Binary64.tiny <= 1 # 1267650600228229401496703205376)%Q.
Proof.
  unfold Binary64.eps, Binary64.tiny. split; [reflexivity |].
  split; [apply two_power_pos |].
  assert (E : (1 # 1267650600228229401496703205376 == 2 ^ (-100))%Q)
    by reflexivity.
  rewrite E. apply Qpower_le_compat_l; [lia | discriminate].
Qed.

Lemma half_quantum (q : Q) :
  (0 < Qabs q)%Q ->
  (2 ^ Binary64.quantum q * (1 # 2)
   <= Binary64.eps * Qabs q + Binary64.tiny)%Q.
Proof.
  intros Hq. pose proof (exponent_le (Qabs q) Hq) as He.
  assert (Heps : (0 < Binary64.eps)%Q) by apply two_power_pos.
  assert (Htiny : (0 < Binary64.tiny)%Q) by apply two_power_pos.
  unfold Binary64.quantum.
  destruct (Z.max_spec (Binary64.exponent (Qabs q) - 52) (-1074))
    as [[_ ->] | [_ ->]].
  - assert (E : (2 ^ (-1074) * (1 # 2) == Binary64.tiny)%Q).
    { unfold Binary64.tiny. replace (-1075) with (-1074 - 1) by lia.
      rewrite Qpower_minus by discriminate. rewrite Qpower_1_r. field. }
    rewrite E. nra.
  - assert (E : (2 ^ (Binary64.exponent (Qabs q) - 52) * (1 # 2)
                 == Binary64.eps * 2 ^ Binary64.exponent (Qabs q))%Q).
    { unfold Binary64.eps.
      replace (Binary64.exponent (Qabs q) - 52)
        with (Binary64.exponent (Qabs q) + -53 + 1) by lia.
      rewrite !Qpower_plus by discriminate. rewrite Qpower_1_r. field. }
    rewrite E. nra.
Qed.

(** Below [2^64] in magnitude a result is rounded to a finite value, of the
    same sign, at most a relative [2^-53] or an absolute [2^-1075] away. *)
Lemma round_error (q : Q) :
  (Qabs q <= 2 ^ 64)%Q ->
  exists r : Q,
    Binary64.round q = JS.Fin r
    /\ (Qabs (r - q) <= Binary64.eps * Qabs q + Binary64.tiny)%Q
    /\ (0 <= q -> 0 <= r)%Q.
Proof.
  intros Hbound.
  destruct eps_tiny as [Heps [Htiny Htiny1]].
  unfold Binary64.round. destruct (Qeq_bool q 0) eqn:Hzero.
  - apply Qeq_bool_iff in Hzero. exists 0%Q. split; [reflexivity |].
    split; [| intros _; apply Qle_refl].
    rewrite Hzero. change (Qabs (0 - 0)) with 0%Q. change (Qabs 0) with 0%Q.
    rewrite Heps. lra.
  - assert (Hq : (0 < Qabs q)%Q).
    { destruct (Qlt_le_dec 0 (Qabs q)) as [| Hle]; [assumption |].
      apply Qabs_Qle_condition in Hle.
      assert (Hq0 : (q == 0)%Q) by lra.
      apply Qeq_bool_iff in Hq0. congruence. }
    pose proof (half_quantum q Hq) as Hhalf.
    pose proof (two_power_pos (Binary64.quantum q)) as Hpos.
    pose proof (nearest_even_close (q / 2 ^ Binary64.quantum q)) as Hm.
    pose proof (nearest_even_nonneg (q / 2 ^ Binary64.quantum q)) as Hsign.
    set (u := (2 ^ Binary64.quantum q)%Q) in *.
    set (m := Binary64.nearest_even (q / u)) in *.
    assert (Herr : (Qabs (inject_Z m * u - q) <= u * (1 # 2))%Q).
    { apply Qabs_Qle_condition in Hm. apply Qabs_Qle_condition.
      assert (E : (q == q / u * u)%Q) by (field; lra).
      set (t := (q / u)%Q) in *. rewrite E. split; nra. }
    assert (Hr : (Qabs (inject_Z m * u) <= 2 ^ 64 + 2 ^ 64 + 1)%Q).
    { pose proof (Qabs_triangle (inject_Z m * u - q) q) as Ht.
      assert (E : (inject_Z m * u - q + q == inject_Z m * u)%Q) by ring.
      rewrite E in Ht. rewrite Heps in Hhalf.
      assert (Hp : ((1 # 9007199254740992) * Qabs q <= Qabs q)%Q) by lra.
      lra. }
    destruct (Qle_bool (2 ^ 1024) (Qabs (inject_Z m * u))) eqn:Hover.
    + apply Qle_bool_iff in Hover.
      assert (Hbig : (2 ^ 64 + 2 ^ 64 + 1 < 2 ^ 1024)%Q)
        by (vm_compute; reflexivity).
      lra.
    + exists (Qred (inject_Z m * u)). split; [reflexivity |].
      rewrite Qred_correct. split; [lra |].
      intros Hnn.
      assert (Hquot : (0 <= q / u)%Q) by (apply Qle_shift_div_l; lra).
      assert (Hm0 : (0 <= inject_Z m)%Q)
        by (change 0%Q with (inject_Z 0); rewrite <- Zle_Qle; auto).
      nra.
Qed.

(** An integer below [2^53] in magnitude is a binary64 value. *)
Lemma round_integer (n : Z) :
  Z.abs n < 2 ^ 53 -> Binary64.round (inject_Z n) = JS.of_Z n.
Proof.
  intros Hn. unfold Binary64.round, JS.of_Z.
  destruct (Qeq_bool (inject_Z n) 0) eqn:Hzero.
  - apply Qeq_bool_iff in Hzero. unfold Qeq in Hzero. cbn in Hzero.
    assert (n = 0) by lia. now subst n.
  - assert (Hu : -1074 <= Binary64.quantum (inject_Z n) <= 0).
    { unfold Binary64.quantum, Binary64.exponent.
      cbn [Qabs inject_Z Qnum Qden]. change (Z.log2 1) with 0.
      assert (n <> 0) by (intros ->; discriminate Hzero).
      assert (Z.log2 (Z.abs n) < 53) by (apply Z.log2_lt_pow2; lia).
      destruct (Qle_bool _ _); lia. }
    set (u := Binary64.quantum (inject_Z n)) in *.
    assert (Hpow : (2 ^ u == / inject_Z (2 ^ (- u)))%Q).
    { replace u with (- - u) at 1 by lia. rewrite Qpower_opp.
      now rewrite <- (Zpower_Qpower 2) by lia. }
    assert (Hk : (0 < inject_Z (2 ^ (- u)))%Q).
    { change 0%Q with (inject_Z 0). rewrite <- Zlt_Qlt.
      apply Z.pow_pos_nonneg; lia. }
    assert (Hquot : (inject_Z n / 2 ^ u == inject_Z (n * 2 ^ (- u)))%Q).
    { rewrite Hpow, inject_Z_mult. field. lra. }
    rewrite (nearest_even_comp _ _ Hquot), nearest_even_Z.
    assert (Hback : (inject_Z (n * 2 ^ (- u)) * 2 ^ u == inject_Z n)%Q).
    { rewrite Hpow, inject_Z_mult. field. lra. }
    destruct (Qle_bool (2 ^ 1024) (Qabs (inject_Z (n * 2 ^ (- u)) * 2 ^ u)))
      eqn:Hover.
    + apply Qle_bool_iff in Hover. rewrite Hback in Hover.
      exfalso. change (Qabs (inject_Z n)) with (inject_Z (Z.abs n)) in Hover.
      assert (Hlt : (inject_Z (Z.abs n) < inject_Z (2 ^ 53))%Q)
        by now rewrite <- Zlt_Qlt.
      assert (Hbig : (inject_Z (2 ^ 53) < 2 ^ 1024)%Q)
        by (vm_compute; reflexivity).
      lra.
    + f_equal. rewrite (Qred_complete _ _ Hback).
      apply Qcanon.Qred_identity. cbn [inject_Z Qnum Qden]. apply Z.gcd_1_r.
Qed.

(** *** [slice] *)

Lemma slice_prefix {A : Type} (l : list A) (k : Z) :
  0 <= k <= Z.of_nat (List.length l) ->
  JS.slice l 0 k = firstn (Z.to_nat k) l.
Proof.
  intros Hk. unfold JS.slice, JS.rel_index.
  destruct (Z.ltb_spec 0 0) as [H0 | _]; [lia |].
  destruct (Z.ltb_spec k 0) as [Hneg | _]; [lia |].
  rewrite Z.min_l by lia. rewrite Z.min_l by lia.
  rewrite Z.sub_0_r, Z.max_l by lia. reflexivity.
Qed.

Lemma length_prefix {A : Type} (l : list A) (n : nat) :
  (n <= List.length l)%nat -> List.length (firstn n l) = n.
Proof. intros Hn. rewrite length_firstn. lia. Qed.

(** *** Undo and redo, as the code has them *)

Lemma handleUndo_moves_back (s : State) :
  canUndo s = true -> handleUndo s = setHistoryIndex (historyIndex s - 1) s.
Proof. intros H. unfold handleUndo. now rewrite H. Qed.

Lemma handleRedo_moves_back (s : State) :
  canRedo s = true -> handleRedo s = setHistoryIndex (historyIndex s - 1) s.
Proof. intros H. unfold handleRedo. now rewrite H. Qed.

Lemma handleRedo_at_tail (s : State) :
  canRedo s = false -> handleRedo s = s.
Proof. intros H. unfold handleRedo. now rewrite H. Qed.

Lemma handleRedo_keeps_history (s : State) :
  history (handleRedo s) = history s.
Proof. unfold handleRedo. now destruct (canRedo s). Qed.

(** *** Append *)

(** C2. With the cursor [i] inside the history, appending [v] yields the
    first [i+1] versions followed by [v], puts the cursor on [v] at index
    [i+1], and from the tail makes the history exactly one longer. *)
Theorem addImageToHistory_branch_cut (s : State) (v : File) :
  0 <= historyIndex s < Z.of_nat (List.length (history s)) ->
  history (addImageToHistory s v s)
    = firstn (Z.to_nat (historyIndex s) + 1) (history s) ++ [v]
  /\ historyIndex (addImageToHistory s v s) = historyIndex s + 1
  /\ (historyIndex s = Z.of_nat (List.length (history s)) - 1 ->
      List.length (history (addImageToHistory s v s))
        = S (List.length (history s))).
Proof.
  intros Hi. unfold addImageToHistory. cbn [history historyIndex setCompletedCrop setCrop setHistoryIndex setHistory].
  rewrite slice_prefix by lia.
  replace (Z.to_nat (historyIndex s + 1)) with (Z.to_nat (historyIndex s) + 1)%nat by lia.
  split; [reflexivity |].
  rewrite length_app, length_prefix by lia. cbn [List.length].
  split; [lia |]. intros Htail.
  lia.
Qed.

(** *** The cursor invariant *)

Lemma handleImageUpload_in_range (file : File) (s : State) :
  cursor_in_range (handleImageUpload file s).
Proof. unfold cursor_in_range. cbn. lia. Qed.

Lemma addImageToHistory_in_range (v : File) (s : State) :
  cursor_in_range (addImageToHistory s v s).
Proof.
  unfold cursor_in_range, addImageToHistory.
  cbn [history historyIndex setCompletedCrop setCrop setHistoryIndex setHistory].
  rewrite length_app. cbn [List.length]. lia.
Qed.

Lemma handleUndo_in_range (s : State) :
  cursor_in_range s -> cursor_in_range (handleUndo s).
Proof.
  unfold cursor_in_range, handleUndo, canUndo. intros Hs.
  destruct (Z.ltb_spec 0 (historyIndex s)); [cbn; lia | exact Hs].
Qed.

(** X4. Without redo, every sequence of operations keeps the cursor in range. *)
Lemma run_without_redo_in_range (ops : list Op) (s : State) :
  Forall (fun o => o <> Redo) ops ->
  cursor_in_range s -> cursor_in_range (run ops s).
Proof.
  unfold run. revert s.
  induction ops as [| o ops IH]; intros s Hops Hs; [exact Hs |].
  inversion Hops as [| ? ? Ho Hrest]; subst. cbn [fold_left].
  apply IH; [exact Hrest |].
  destruct o as [file | file | |]; cbn [step].
  - apply handleImageUpload_in_range.
  - apply addImageToHistory_in_range.
  - now apply handleUndo_in_range.
  - now contradiction Ho.
Qed.

(** *** Arithmetic of the scale factors *)

Lemma inject_Z_pos (z : Z) : 0 < z -> (0 < inject_Z z)%Q.
Proof. intros Hz. change 0%Q with (inject_Z 0). now rewrite <- Zlt_Qlt. Qed.


Lemma div_by_zero_not_finite (n : Z) :
  JS.isFinite (JS.div (JS.of_Z n) (JS.of_Z 0)) = false.
Proof.
  unfold JS.div, JS.of_Z. cbn [Qeq_bool]. unfold JS.signed_inf.
  change (Qeq_bool (inject_Z 0) 0) with true. cbv iota.
  now destruct (0 ?= inject_Z n)%Q.
Qed.

Lemma mul_not_finite (p : Q) (b : JS.number) :
  JS.isFinite b = false -> JS.isFinite (JS.Math_round (JS.mul (JS.Fin p) b)) = false.
Proof.
  destruct b as [q | | |]; cbn; intros H; try discriminate; try reflexivity;
    unfold JS.signed_inf; now destruct (0 ?= p)%Q.
Qed.





(** *** The scale and the scaled positions in binary64 *)

Lemma round_error_bound (q : Q) :
  (0 <= q <= 2 ^ 64)%Q ->
  exists r : Q,
    Binary64.round q = JS.Fin r
    /\ (0 <= r)%Q
    /\ (Qabs (r - q)
        <= (1 # 9007199254740992) * q
           + (1 # 1267650600228229401496703205376))%Q.
Proof.
  intros [Hlo Hhi].
  assert (Habs : (Qabs q == q)%Q) by now apply Qabs_pos.
  destruct (round_error q) as (r & Hr & Herr & Hsign);
    [now rewrite Habs |].
  destruct eps_tiny as [Heps [_ Htiny]].
  exists r. split; [exact Hr |]. split; [now apply Hsign |].
  rewrite Habs, Heps in Herr. lra.
Qed.

(** The scale of an axis for sizes below [2^32]: a finite value that is
    not negative. *)
Lemma scale_binary64 (n d : Z) :
  0 < d < 2 ^ 32 -> 0 <= n < 2 ^ 32 ->
  exists scale : Q,
    Binary64.div (JS.of_Z n) (JS.of_Z d) = JS.Fin scale /\ (0 <= scale)%Q.
Proof.
  intros [Hd Hd32] [Hn Hn32].
  pose proof (inject_Z_pos d Hd) as Hdq.
  assert (Hd1 : (1 <= inject_Z d)%Q)
    by (change 1%Q with (inject_Z 1); rewrite <- Zle_Qle; lia).
  assert (Hnq : (0 <= inject_Z n)%Q)
    by (change 0%Q with (inject_Z 0); now rewrite <- Zle_Qle).
  assert (Hnmax : (inject_Z n <= 4294967295)%Q)
    by (change 4294967295%Q with (inject_Z 4294967295); rewrite <- Zle_Qle; lia).
  assert (Hbig : (2 ^ 64 == 18446744073709551616)%Q) by reflexivity.
  unfold Binary64.div, JS.of_Z.
  assert (Hnz : Qeq_bool (inject_Z d) 0 = false).
  { destruct (Qeq_bool (inject_Z d) 0) eqn:E; [| reflexivity].
    apply Qeq_bool_iff in E. lra. }
  rewrite Hnz.
  assert (Ha : (0 <= inject_Z n / inject_Z d <= inject_Z n)%Q).
  { split.
    - apply Qle_shift_div_l; lra.
    - apply Qle_shift_div_r; [lra | nra]. }
  destruct (round_error_bound (inject_Z n / inject_Z d)) as (scale & -> & Hs & _);
    [rewrite Hbig; lra |].
  now exists scale.
Qed.

Lemma round_zero_product (scale : Q) :
  Binary64.mul (JS.Fin (inject_Z 0)) (JS.Fin scale) = JS.Fin 0.
Proof.
  cbn [Binary64.mul]. unfold Binary64.round.
  assert (E : Qeq_bool (inject_Z 0 * scale) 0 = true)
    by (apply Qeq_bool_iff; change (inject_Z 0) with 0%Q; ring).
  now rewrite E.
Qed.

(** The scale of an axis and the product of a position on it, as the code
    computes them for sizes below [2^32] and a position inside the rendered
    size: finite, not negative, and the product within [2^-20] of the exact
    [p * n / d]. *)
Lemma scaled_binary64 (p : Q) (n d : Z) :
  0 < d < 2 ^ 32 -> 0 <= n < 2 ^ 32 -> (0 <= p <= inject_Z d)%Q ->
  exists prod : Q,
    Binary64.mul (JS.Fin p) (Binary64.div (JS.of_Z n) (JS.of_Z d))
    = JS.Fin prod
    /\ (0 <= prod)%Q
    /\ (Qabs (prod - p * inject_Z n / inject_Z d) <= 1 # 1048576)%Q.
Proof.
  intros [Hd Hd32] [Hn Hn32] [Hp Hpd].
  pose proof (inject_Z_pos d Hd) as Hdq.
  assert (Hd1 : (1 <= inject_Z d)%Q)
    by (change 1%Q with (inject_Z 1); rewrite <- Zle_Qle; lia).
  assert (Hdmax : (inject_Z d <= 4294967295)%Q)
    by (change 4294967295%Q with (inject_Z 4294967295); rewrite <- Zle_Qle; lia).
  assert (Hnq : (0 <= inject_Z n)%Q)
    by (change 0%Q with (inject_Z 0); now rewrite <- Zle_Qle).
  assert (Hnmax : (inject_Z n <= 4294967295)%Q)
    by (change 4294967295%Q with (inject_Z 4294967295); rewrite <- Zle_Qle; lia).
  assert (Hbig : (2 ^ 64 == 18446744073709551616)%Q) by reflexivity.
  set (a := (inject_Z n / inject_Z d)%Q).
  assert (Ha : (0 <= a <= inject_Z n)%Q).
  { unfold a. split.
    - apply Qle_shift_div_l; lra.
    - apply Qle_shift_div_r; [lra | nra]. }
  set (x := (p * a)%Q).
  assert (Hx : (0 <= x <= inject_Z n)%Q).
  { assert (E : (x == p / inject_Z d * inject_Z n)%Q)
      by (unfold x, a; field; lra).
    assert (Hfrac : (0 <= p / inject_Z d <= 1)%Q).
    { split; [apply Qle_shift_div_l; lra | apply Qle_shift_div_r; lra]. }
    set (f := (p / inject_Z d)%Q) in *. rewrite E. split; nra. }
  assert (Hgoal : (p * inject_Z n / inject_Z d == x)%Q)
    by (unfold x, a; field; lra).
  unfold Binary64.div, JS.of_Z.
  assert (Hnz : Qeq_bool (inject_Z d) 0 = false).
  { destruct (Qeq_bool (inject_Z d) 0) eqn:E; [| reflexivity].
    apply Qeq_bool_iff in E. lra. }
  rewrite Hnz. fold a.
  destruct (round_error_bound a) as (sc & -> & Hsc & Herr);
    [rewrite Hbig; lra |].
  cbn [Binary64.mul].
  apply Qabs_Qle_condition in Herr.
  assert (Hps : (Qabs (p * sc - x)
                 <= (1 # 9007199254740992) * x
                    + (1 # 1267650600228229401496703205376) * p)%Q).
  { apply Qabs_Qle_condition. unfold x.
    set (b := ((1 # 9007199254740992) * a
               + (1 # 1267650600228229401496703205376))%Q) in *.
    assert (E : ((1 # 9007199254740992) * (p * a)
                 + (1 # 1267650600228229401496703205376) * p == p * b)%Q)
      by (unfold b; ring).
    rewrite E. split; nra. }
  apply Qabs_Qle_condition in Hps.
  assert (Hpsc : (0 <= p * sc)%Q) by nra.
  destruct (round_error_bound (p * sc)) as (prod & -> & Hprod & Herr2);
    [rewrite Hbig; lra |].
  exists prod. split; [reflexivity |]. split; [exact Hprod |].
  rewrite Hgoal. apply Qabs_Qle_condition in Herr2.
  apply Qabs_Qle_condition. lra.
Qed.

(** *** The hotspot set by a click *)

Lemma retouch_click (e : MouseEvent) (s : State) :
  activeTab s = tab_retouch ->
  handleImageClick e s =
    let img := currentTarget e in
    let scaleX := JS.div (JS.of_Z (naturalWidth img)) (JS.of_Z (width img)) in
    let scaleY := JS.div (JS.of_Z (naturalHeight img)) (JS.of_Z (height img)) in
    let pointerX := JS.Fin (clientX e - rect_left e) in
    let pointerY := JS.Fin (clientY e - rect_top e) in
    setError None
      (setDisplayHotspot (Some {| pt_x := pointerX; pt_y := pointerY |})
         (setEditHotspot
            (Some {| pt_x := JS.Math_round (JS.mul pointerX scaleX);
                     pt_y := JS.Math_round (JS.mul pointerY scaleY) |}) s)).
Proof. intros Htab. unfold handleImageClick. now rewrite Htab. Qed.


Lemma retouch_click_binary64 (e : MouseEvent) (s : State) :
  activeTab s = tab_retouch ->
  handleImageClick_binary64 e s =
    let img := currentTarget e in
    let scaleX :=
      Binary64.div (JS.of_Z (naturalWidth img)) (JS.of_Z (width img)) in
    let scaleY :=
      Binary64.div (JS.of_Z (naturalHeight img)) (JS.of_Z (height img)) in
    let pointerX := Binary64.sub (JS.Fin (clientX e)) (JS.Fin (rect_left e)) in
    let pointerY := Binary64.sub (JS.Fin (clientY e)) (JS.Fin (rect_top e)) in
    setError None
      (setDisplayHotspot (Some {| pt_x := pointerX; pt_y := pointerY |})
         (setEditHotspot
            (Some {| pt_x := JS.Math_round (Binary64.mul pointerX scaleX);
                     pt_y := JS.Math_round (Binary64.mul pointerY scaleY) |})
            s)).
Proof. intros Htab. unfold handleImageClick_binary64. now rewrite Htab. Qed.

Lemma Qnearest_monotone (p q : Q) :
  (p <= q)%Q -> JS.Qnearest p <= JS.Qnearest q.
Proof. intros Hpq. unfold JS.Qnearest. apply Qfloor_resp_le. lra. Qed.

Lemma Qnearest_bracket (exact product : Q) :
  (Qabs (product - exact) <= 1 # 1048576)%Q ->
  JS.Qnearest (exact - (1 # 1048576)) <= JS.Qnearest product
  <= JS.Qnearest (exact + (1 # 1048576)).
Proof.
  intros Hclose. apply Qabs_Qle_condition in Hclose.
  split; apply Qnearest_monotone; lra.
Qed.

(** C4, amended. In retouch mode, for sizes below [2^32] and a click inside
    the rendered image, at [(pointerX, pointerY)] relative to it, the
    hotspot is, per axis, the nearest integer of the binary64 product of
    the pointer position and the binary64 quotient of the natural by the
    rendered size.  That product is within [2^-20] of
    [pointer * natural / rendered], so the coordinate lies between the
    nearest integers of that value less and plus [2^-20]. *)
Theorem handleImageClick_binary64_hotspot (e : MouseEvent) (s : State)
    (pointerX pointerY : Q) :
  activeTab s = tab_retouch ->
  0 < width (currentTarget e) < 2 ^ 32 ->
  0 < height (currentTarget e) < 2 ^ 32 ->
  0 <= naturalWidth (currentTarget e) < 2 ^ 32 ->
  0 <= naturalHeight (currentTarget e) < 2 ^ 32 ->
  Binary64.sub (JS.Fin (clientX e)) (JS.Fin (rect_left e)) = JS.Fin pointerX ->
  Binary64.sub (JS.Fin (clientY e)) (JS.Fin (rect_top e)) = JS.Fin pointerY ->
  (0 <= pointerX <= inject_Z (width (currentTarget e)))%Q ->
  (0 <= pointerY <= inject_Z (height (currentTarget e)))%Q ->
  let scaleX := Binary64.div (JS.of_Z (naturalWidth (currentTarget e)))
                  (JS.of_Z (width (currentTarget e))) in
  let scaleY := Binary64.div (JS.of_Z (naturalHeight (currentTarget e)))
                  (JS.of_Z (height (currentTarget e))) in
  let exactX := (pointerX * inject_Z (naturalWidth (currentTarget e))
                 / inject_Z (width (currentTarget e)))%Q in
  let exactY := (pointerY * inject_Z (naturalHeight (currentTarget e))
                 / inject_Z (height (currentTarget e)))%Q in
  exists productX productY : Q,
    Binary64.mul (JS.Fin pointerX) scaleX = JS.Fin productX
    /\ Binary64.mul (JS.Fin pointerY) scaleY = JS.Fin productY
    /\ editHotspot (handleImageClick_binary64 e s)
       = Some {| pt_x := JS.of_Z (JS.Qnearest productX);
                 pt_y := JS.of_Z (JS.Qnearest productY) |}
    /\ (Qabs (productX - exactX) <= 1 # 1048576)%Q
    /\ (Qabs (productY - exactY) <= 1 # 1048576)%Q
    /\ JS.Qnearest (exactX - (1 # 1048576)) <= JS.Qnearest productX
       <= JS.Qnearest (exactX + (1 # 1048576))
    /\ JS.Qnearest (exactY - (1 # 1048576)) <= JS.Qnearest productY
       <= JS.Qnearest (exactY + (1 # 1048576)).
Proof.
  intros Htab Hw Hh Hnw Hnh HpX HpY Hx Hy scaleX scaleY exactX exactY.
  destruct (scaled_binary64 pointerX _ _ Hw Hnw Hx) as (productX & HmX & _ & HcX).
  destruct (scaled_binary64 pointerY _ _ Hh Hnh Hy) as (productY & HmY & _ & HcY).
  exists productX, productY.
  split; [exact HmX |]. split; [exact HmY |].
  split.
  - rewrite retouch_click_binary64 by assumption.
    cbn [editHotspot setError setDisplayHotspot setEditHotspot].
    rewrite HpX, HpY, HmX, HmY. reflexivity.
  - split; [exact HcX |]. split; [exact HcY |].
    split; now apply Qnearest_bracket.
Qed.

(** C7, as the code has it. In retouch mode, when the rendered width or
    height is zero the click handler reports no error: it clears the error
    and stores a hotspot whose coordinate on each zero-sized axis is not
    finite. *)
Theorem handleImageClick_zero_size (e : MouseEvent) (s : State) :
  activeTab s = tab_retouch ->
  width (currentTarget e) = 0 \/ height (currentTarget e) = 0 ->
  error (handleImageClick e s) = None
  /\ exists spot : Point,
       editHotspot (handleImageClick e s) = Some spot
       /\ (width (currentTarget e) = 0 -> JS.isFinite (pt_x spot) = false)
       /\ (height (currentTarget e) = 0 -> JS.isFinite (pt_y spot) = false).
Proof.
  intros Htab _. rewrite retouch_click by assumption.
  cbn [error editHotspot setError setDisplayHotspot setEditHotspot].
  split; [reflexivity |]. eexists. split; [reflexivity |].
  cbn [pt_x pt_y].
  split; intros ->; apply mul_not_finite, div_by_zero_not_finite.
Qed.


(** *** The canvas of a crop *)

(** The size a canvas takes from a number that is not negative and below
    [2^31]: its integer part. *)
Lemma canvas_size_floor (default : Z) (q : Q) :
  (0 <= q <= 1073741826)%Q ->
  Binary64.canvas_size default (JS.Fin q) = Qfloor q.
Proof.
  intros [Hlo Hhi]. unfold Binary64.canvas_size, Binary64.to_unsigned_long.
  assert (Hle : Qle_bool 0 q = true) by now apply Qle_bool_iff.
  rewrite Hle.
  assert (H0 : 0 <= Qfloor q)
    by (change 0 with (Qfloor 0); now apply Qfloor_resp_le).
  assert (H1 : Qfloor q <= 1073741826).
  { change 1073741826 with (Qfloor (inject_Z 1073741826)).
    now apply Qfloor_resp_le. }
  rewrite Z.mod_small by lia.
  destruct (Z.leb_spec (Qfloor q) 2147483647); [reflexivity | lia].
Qed.

(** One side of the buffer: the binary64 product of the rendered side of
    the crop and the density, cut to its integer part. *)
Lemma buffer_side (default : Z) (side density : Q) :
  (0 <= side)%Q -> (0 <= density)%Q -> (side * density <= 1073741824)%Q ->
  exists product : Q,
    Binary64.mul (JS.Fin side) (JS.Fin density) = JS.Fin product
    /\ Binary64.canvas_size default (Binary64.mul (JS.Fin side) (JS.Fin density))
       = Qfloor product
    /\ (Qabs (product - side * density) <= 1 # 4194304)%Q.
Proof.
  intros Hside Hdensity Hmax.
  assert (Hbig : (2 ^ 64 == 18446744073709551616)%Q) by reflexivity.
  assert (Hnn : (0 <= side * density)%Q) by nra.
  cbn [Binary64.mul].
  destruct (round_error_bound (side * density)) as (product & -> & Hp & Herr);
    [rewrite Hbig; lra |].
  apply Qabs_Qle_condition in Herr.
  exists product. split; [reflexivity |]. split.
  - apply canvas_size_floor. lra.
  - apply Qabs_Qle_condition. lra.
Qed.

(** C8, amended. For a crop rectangle [(cx, cy, cw, ch)] in rendered pixels
    inside an image whose sizes are below [2^32], and a density
    ([devicePixelRatio], or 1 when that is falsy) whose products with [cw]
    and [ch] stay below [2^30], the buffer gets the integer part of the
    binary64 product of the rendered width, and height, of the rectangle
    and the density, a product within [2^-22] of the exact one; and the
    rectangle sampled from the image is, whatever the density, the binary64
    value of the natural-pixel one, each of its four numbers within [2^-20]
    of the exact value. *)
Theorem getCroppedImg_canvas_geometry (image : HTMLImageElement)
    (cx cy cw ch density : Q) (devicePixelRatio : JS.number) :
  0 < width image < 2 ^ 32 ->
  0 < height image < 2 ^ 32 ->
  0 <= naturalWidth image < 2 ^ 32 ->
  0 <= naturalHeight image < 2 ^ 32 ->
  (0 <= cx <= inject_Z (width image))%Q ->
  (0 <= cy <= inject_Z (height image))%Q ->
  (0 <= cw <= inject_Z (width image))%Q ->
  (0 <= ch <= inject_Z (height image))%Q ->
  JS.or_else devicePixelRatio (JS.of_Z 1) = JS.Fin density ->
  (0 <= density)%Q ->
  (cw * density <= 1073741824)%Q ->
  (ch * density <= 1073741824)%Q ->
  let nw := inject_Z (naturalWidth image) in
  let nh := inject_Z (naturalHeight image) in
  let rw := inject_Z (width image) in
  let rh := inject_Z (height image) in
  exists (canvas : Canvas) (bufferW bufferH x0 y0 w0 h0 : Q),
    getCroppedImg_canvas true devicePixelRatio image
      {| crop_x := JS.Fin cx; crop_y := JS.Fin cy;
         crop_width := JS.Fin cw; crop_height := JS.Fin ch |} = inr canvas
    /\ Binary64.mul (JS.Fin cw) (JS.Fin density) = JS.Fin bufferW
    /\ Binary64.mul (JS.Fin ch) (JS.Fin density) = JS.Fin bufferH
    /\ canvas_width canvas = JS.of_Z (Qfloor bufferW)
    /\ canvas_height canvas = JS.of_Z (Qfloor bufferH)
    /\ (Qabs (bufferW - cw * density) <= 1 # 4194304)%Q
    /\ (Qabs (bufferH - ch * density) <= 1 # 4194304)%Q
    /\ sx (drawn canvas) = JS.Fin x0
    /\ sy (drawn canvas) = JS.Fin y0
    /\ sWidth (drawn canvas) = JS.Fin w0
    /\ sHeight (drawn canvas) = JS.Fin h0
    /\ (Qabs (x0 - cx * nw / rw) <= 1 # 1048576)%Q
    /\ (Qabs (y0 - cy * nh / rh) <= 1 # 1048576)%Q
    /\ (Qabs (w0 - cw * nw / rw) <= 1 # 1048576)%Q
    /\ (Qabs (h0 - ch * nh / rh) <= 1 # 1048576)%Q.
Proof.
  intros Hw Hh Hnw Hnh Hcx Hcy Hcw Hch Hdensity Hd HmaxW HmaxH nw nh rw rh.
  destruct (buffer_side 300 cw density (proj1 Hcw) Hd HmaxW)
    as (bufferW & HbW & HsW & HeW).
  destruct (buffer_side 150 ch density (proj1 Hch) Hd HmaxH)
    as (bufferH & HbH & HsH & HeH).
  destruct (scaled_binary64 cx _ _ Hw Hnw Hcx) as (x0 & Hx0 & _ & Hex).
  destruct (scaled_binary64 cy _ _ Hh Hnh Hcy) as (y0 & Hy0 & _ & Hey).
  destruct (scaled_binary64 cw _ _ Hw Hnw Hcw) as (w0 & Hw0 & _ & Hew).
  destruct (scaled_binary64 ch _ _ Hh Hnh Hch) as (h0 & Hh0 & _ & Heh).
  eexists _, bufferW, bufferH, x0, y0, w0, h0.
  split; [unfold getCroppedImg_canvas; cbn [negb]; reflexivity |].
  cbn [canvas_width canvas_height drawn sx sy sWidth sHeight
       crop_x crop_y crop_width crop_height].
  rewrite Hdensity, HsW, HsH.
  repeat (split; [assumption || reflexivity |]). assumption.
Qed.

(** *** Dispatch of the mutating operations *)

Lemma get_in_range {A : Type} (l : list A) (i : Z) (a : A) :
  JS.get l i = Some a -> 0 <= i < Z.of_nat (List.length l).
Proof.
  unfold JS.get. destruct (Z.ltb_spec i 0) as [| Hi]; [discriminate |].
  intros Hnth. assert (Hlt : (Z.to_nat i < List.length l)%nat).
  { apply nth_error_Some. congruence. }
  lia.
Qed.

(** A handler that reaches its [await] found a current image, and has only
    raised the loading flag and cleared the error. *)
Lemma start_pending (k : Kind) (p : string) (r s1 : State)
    (req : Request File) :
  start k p r = (s1, Some req) ->
  s1 = setError None (setIsLoading true r)
  /\ currentImage r = Some (source req)
  /\ operation req = k.
Proof.
  destruct k; cbn [start]; unfold handleGenerate_start,
    handleApplyFilter_start, handleApplyAdjustment_start,
    handleApplyBackground_start, handleApplyFreestyle_start, apply_start;
    destruct (currentImage r) as [image |]; try discriminate;
    try (intros [= <- <-]; auto).
  destruct (JS.empty_string (trim (prompt r))); try discriminate.
  destruct (editHotspot r); try discriminate.
  intros [= <- <-]; auto.
Qed.

Lemma finish_success (k : Kind) (r s : State) (reply : JS.Thrown + string)
    (now : Z) (file : File) :
  awaited_file reply (filePrefix k) now = inr file ->
  history (finish k r reply now s)
    = JS.slice (history r) 0 (historyIndex r + 1) ++ [file]
  /\ historyIndex (finish k r reply now s)
      = Z.of_nat (List.length
                    (JS.slice (history r) 0 (historyIndex r + 1) ++ [file])) - 1
  /\ isLoading (finish k r reply now s) = false
  /\ crop (finish k r reply now s) = None
  /\ completedCrop (finish k r reply now s) = None.
Proof.
  intros Hfile.
  destruct k; cbn [finish filePrefix] in *;
    unfold handleGenerate_finish, handleApplyFilter_finish,
      handleApplyAdjustment_finish, handleApplyBackground_finish,
      handleApplyFreestyle_finish, apply_finish;
    rewrite Hfile; cbn; auto.
Qed.

Lemma finish_failure (k : Kind) (r s : State) (reply : JS.Thrown + string)
    (now : Z) (err : JS.Thrown) :
  awaited_file reply (filePrefix k) now = inl err ->
  finish k r reply now s
    = setIsLoading false
        (setError (Some (failurePrefix k ++ errorMessage err)%string) s).
Proof.
  intros Herr.
  destruct k; cbn [finish filePrefix failurePrefix] in *;
    unfold handleGenerate_finish, handleApplyFilter_finish,
      handleApplyAdjustment_finish, handleApplyBackground_finish,
      handleApplyFreestyle_finish, apply_finish;
    now rewrite Herr.
Qed.

(** C5, amended. While an operation is pending the submit controls of the
    retouch, freestyle and background panels are disabled: a click on them
    issues no request and changes no state.  The reply to the pending
    operation, when it yields a file, then appends exactly that one version
    after the cursor it started from and lowers the loading flag. *)
Theorem pending_submit_is_gated (k : Kind) (p : string) (r s1 : State)
    (req : Request File) :
  start k p r = (s1, Some req) ->
  isLoading s1 = true
  /\ click_generate s1 = (s1, None)
  /\ (forall q : string, click_freestyle q s1 = (s1, None))
  /\ (forall q : string, click_background q s1 = (s1, None))
  /\ (forall (reply : JS.Thrown + string) (now : Z) (file : File),
        awaited_file reply (filePrefix k) now = inr file ->
        history (finish k r reply now s1)
          = firstn (Z.to_nat (historyIndex r) + 1) (history r) ++ [file]
        /\ historyIndex (finish k r reply now s1) = historyIndex r + 1
        /\ isLoading (finish k r reply now s1) = false).
Proof.
  intros Hstart. destruct (start_pending _ _ _ _ _ Hstart) as (-> & Himg & _).
  apply get_in_range in Himg.
  split; [reflexivity |].
  split; [reflexivity |].
  split; [reflexivity |].
  split; [reflexivity |].
  intros reply now file Hfile.
  destruct (finish_success k r (setError None (setIsLoading true r))
              reply now file Hfile) as (Hh & Hi & Hl & _).
  rewrite Hh, Hi, Hl. rewrite slice_prefix by lia.
  replace (Z.to_nat (historyIndex r + 1))
    with (Z.to_nat (historyIndex r) + 1)%nat by lia.
  repeat split.
  rewrite length_app, length_prefix by lia. cbn [List.length]. lia.
Qed.

(** C6. For each of the five mutating operations, when the collaborator
    call (or the conversion of its result) fails, the history and the
    cursor are those from before the operation, the loading flag is down
    and the error holds the failure message of that operation. *)
Theorem failure_leaves_history (k : Kind) (p : string) (r s1 : State)
    (req : Request File) (reply : JS.Thrown + string) (now : Z)
    (err : JS.Thrown) :
  start k p r = (s1, Some req) ->
  awaited_file reply (filePrefix k) now = inl err ->
  history (finish k r reply now s1) = history r
  /\ historyIndex (finish k r reply now s1) = historyIndex r
  /\ isLoading (finish k r reply now s1) = false
  /\ error (finish k r reply now s1)
      = Some (failurePrefix k ++ errorMessage err)%string.
Proof.
  intros Hstart Herr.
  destruct (start_pending _ _ _ _ _ Hstart) as (-> & _ & _).
  rewrite (finish_failure _ _ _ _ _ _ Herr). cbn. auto.
Qed.

Lemma appended_history (c : Completion) (now : Z) (s : State) (file : File) :
  appended c now s = Some file ->
  history (complete c now s)
    = JS.slice (history (render_of c s)) 0 (historyIndex (render_of c s) + 1)
      ++ [file]
  /\ crop (complete c now s) = None
  /\ completedCrop (complete c now s) = None.
Proof.
  destruct c as [k r reply | imgRef has2d dpr]; cbn [appended complete render_of].
  - destruct (awaited_file reply (filePrefix k) now) as [| f] eqn:E;
      [discriminate |]. intros [= ->].
    destruct (finish_success k r s reply now file E) as (? & _ & _ & ? & ?).
    auto.
  - unfold handleCrop.
    destruct (completedCrop s) as [c |]; [| discriminate].
    destruct imgRef as [image |]; [| discriminate].
    destruct (getCroppedImg has2d dpr image c) as [| url]; [discriminate |].
    destruct (dataURLtoFile url (fileName "cropped-" now)) as [| f];
      [discriminate |]. intros [= ->]. cbn. auto.
Qed.

Lemma not_appended_history (c : Completion) (now : Z) (s : State) :
  appended c now s = None -> history (complete c now s) = history s.
Proof.
  destruct c as [k r reply | imgRef has2d dpr]; cbn [appended complete].
  - destruct (awaited_file reply (filePrefix k) now) as [err | f] eqn:E;
      [| discriminate]. intros _.
    now rewrite (finish_failure _ _ _ _ _ _ E).
  - unfold handleCrop.
    destruct (completedCrop s) as [c |]; [| reflexivity].
    destruct imgRef as [image |]; [| reflexivity].
    destruct (getCroppedImg has2d dpr image c) as [| url]; [reflexivity |].
    destruct (dataURLtoFile url (fileName "cropped-" now)) as [| f];
      [reflexivity | discriminate].
Qed.

(** C10. Whenever a completion appends a version, be it the reply to a
    retouch, filter, adjustment, background or freestyle operation or a
    committed crop, the resulting state has neither an active crop region
    nor a completed crop selection, and its history ends with that
    version. *)
Theorem append_clears_crop (c : Completion) (now : Z) (s : State)
    (file : File) :
  appended c now s = Some file ->
  crop (complete c now s) = None
  /\ completedCrop (complete c now s) = None
  /\ exists before : list File, history (complete c now s) = before ++ [file].
Proof.
  intros Happ. destruct (appended_history c now s file Happ) as (Hh & Hc & Hcc).
  repeat split; try assumption. eexists. exact Hh.
Qed.

(** ** Further properties of the session *)

(** *** History *)

Lemma get_prefix_app {A : Type} (l : list A) (n : nat) (v : A) (i : Z) :
  0 <= i < Z.of_nat n -> (n <= List.length l)%nat ->
  JS.get (firstn n l ++ [v]) i = JS.get l i.
Proof.
  intros Hi Hn. unfold JS.get.
  destruct (Z.ltb_spec i 0) as [| _]; [lia |].
  rewrite nth_error_app1 by (rewrite length_prefix by assumption; lia).
  rewrite nth_error_firstn.
  destruct (Nat.ltb_spec (Z.to_nat i) n); [reflexivity | lia].
Qed.

Lemma get_last_app {A : Type} (l : list A) (v : A) :
  JS.get (l ++ [v]) (Z.of_nat (List.length l)) = Some v.
Proof.
  unfold JS.get. destruct (Z.ltb_spec (Z.of_nat (List.length l)) 0); [lia |].
  rewrite Nat2Z.id, nth_error_app2 by lia. now rewrite Nat.sub_diag.
Qed.

Lemma addImageToHistory_fields (s : State) (v : File) :
  0 <= historyIndex s < Z.of_nat (List.length (history s)) ->
  history (addImageToHistory s v s)
    = firstn (Z.to_nat (historyIndex s) + 1) (history s) ++ [v]
  /\ historyIndex (addImageToHistory s v s) = historyIndex s + 1.
Proof.
  intros Hi. unfold addImageToHistory.
  cbn [history historyIndex setCompletedCrop setCrop setHistoryIndex setHistory].
  rewrite slice_prefix by lia.
  replace (Z.to_nat (historyIndex s + 1))
    with (Z.to_nat (historyIndex s) + 1)%nat by lia.
  split; [reflexivity |].
  rewrite length_app, length_prefix by lia. cbn [List.length]. lia.
Qed.

(** X1. With the cursor inside the history, an append shows the new version,
    keeps the original, and leaves undo enabled and redo disabled. *)
Theorem addImageToHistory_shows_new_version (s : State) (v : File) :
  0 <= historyIndex s < Z.of_nat (List.length (history s)) ->
  currentImage (addImageToHistory s v s) = Some v
  /\ originalImage (addImageToHistory s v s) = originalImage s
  /\ canUndo (addImageToHistory s v s) = true
  /\ canRedo (addImageToHistory s v s) = false.
Proof.
  intros Hi.
  destruct (addImageToHistory_fields s v Hi) as (Hh & Hc).
  unfold currentImage, originalImage, canUndo, canRedo. rewrite Hh, Hc.
  assert (Hlen : List.length (firstn (Z.to_nat (historyIndex s) + 1) (history s))
                 = (Z.to_nat (historyIndex s) + 1)%nat)
    by (apply length_prefix; lia).
  repeat split.
  - replace (historyIndex s + 1)
      with (Z.of_nat (List.length
                        (firstn (Z.to_nat (historyIndex s) + 1) (history s))))
      by (rewrite Hlen; lia).
    apply get_last_app.
  - apply get_prefix_app; lia.
  - apply Z.ltb_lt. lia.
  - apply Z.ltb_ge. rewrite length_app, Hlen. cbn [List.length]. lia.
Qed.

(** X2. An append followed by an undo is back on the version and the cursor
    from before the append. *)
Theorem undo_after_append (s : State) (v : File) :
  0 <= historyIndex s < Z.of_nat (List.length (history s)) ->
  historyIndex (handleUndo (addImageToHistory s v s)) = historyIndex s
  /\ currentImage (handleUndo (addImageToHistory s v s)) = currentImage s.
Proof.
  intros Hi.
  destruct (addImageToHistory_fields s v Hi) as (Hh & Hc).
  assert (Hundo : canUndo (addImageToHistory s v s) = true)
    by (unfold canUndo; rewrite Hc; apply Z.ltb_lt; lia).
  rewrite handleUndo_moves_back by exact Hundo.
  unfold currentImage.
  cbn [history historyIndex setHistoryIndex]. rewrite Hh, Hc.
  replace (historyIndex s + 1 - 1) with (historyIndex s) by lia.
  split; [reflexivity |]. apply get_prefix_app; lia.
Qed.

Lemma handleUndo_keeps_history (s : State) :
  history (handleUndo s) = history s.
Proof. unfold handleUndo. now destruct (canUndo s). Qed.

Lemma handleUndo_cursor (s : State) :
  0 <= historyIndex s ->
  historyIndex (handleUndo s) = Z.max 0 (historyIndex s - 1).
Proof.
  intros Hi. unfold handleUndo, canUndo.
  destruct (Z.ltb_spec 0 (historyIndex s)); cbn [historyIndex setHistoryIndex]; lia.
Qed.

(** X3. Undo pressed [n] times from a cursor [i >= 0] leaves the versions as
    they are and puts the cursor on [max 0 (i - n)]: enough undos always end
    on the original image. *)
Theorem repeated_undo (n : nat) (s : State) :
  0 <= historyIndex s ->
  history (Nat.iter n handleUndo s) = history s
  /\ historyIndex (Nat.iter n handleUndo s)
     = Z.max 0 (historyIndex s - Z.of_nat n).
Proof.
  intros Hi. induction n as [| n [IHh IHc]].
  - change (Nat.iter 0 handleUndo s) with s. split; [reflexivity | lia].
  - rewrite Nat.iter_succ, handleUndo_keeps_history, handleUndo_cursor by lia.
    split; [exact IHh | lia].
Qed.

(** X5. Selecting no file changes nothing; selecting files makes the first one
    the whole history, shown as current and as original image, with undo
    and redo disabled. *)
Theorem handleFileSelect_first_file (files : option (list File)) (s : State) :
  match files with
  | Some (first :: _) =>
      history (handleFileSelect files s) = [first]
      /\ currentImage (handleFileSelect files s) = Some first
      /\ originalImage (handleFileSelect files s) = Some first
      /\ handleUndo (handleFileSelect files s) = handleFileSelect files s
      /\ handleRedo (handleFileSelect files s) = handleFileSelect files s
  | _ => handleFileSelect files s = s
  end.
Proof.
  destruct files as [[| first rest] |]; [reflexivity | | reflexivity].
  cbn [handleFileSelect].
  assert (Hh : history (handleImageUpload first s) = [first]) by reflexivity.
  assert (Hi : historyIndex (handleImageUpload first s) = 0) by reflexivity.
  unfold currentImage, originalImage, handleUndo, handleRedo, canUndo, canRedo.
  rewrite Hh, Hi. repeat split.
Qed.

(** *** Validation before dispatch *)

(** X6. A submit that issues no request has only set the error message, and it
    happens exactly for want of a current image or, for retouch, of a
    non-blank prompt or of a hotspot. *)
Theorem rejected_submit_only_sets_error (k : Kind) (p : string) (s s' : State) :
  start k p s = (s', None) ->
  (exists message : string, s' = setError (Some message) s)
  /\ (currentImage s = None
      \/ k = Retouch
         /\ (JS.empty_string (trim (prompt s)) = true \/ editHotspot s = None)).
Proof.
  destruct k; cbn [start]; unfold handleGenerate_start,
    handleApplyFilter_start, handleApplyAdjustment_start,
    handleApplyBackground_start, handleApplyFreestyle_start, apply_start;
    destruct (currentImage s) as [image |];
    try (intros [= <-]; split; [eexists; reflexivity | now left]);
    try discriminate.
  destruct (JS.empty_string (trim (prompt s))) eqn:Hblank.
  - intros [= <-]. split; [eexists; reflexivity | right; auto].
  - destruct (editHotspot s) eqn:Hspot; [discriminate |].
    intros [= <-]. split; [eexists; reflexivity | right; auto].
Qed.

(** X7. The request a submit issues carries the current image; retouch sends
    the session's non-blank prompt and its hotspot, the other operations
    the instruction they were given and no hotspot. *)
Theorem request_of_submit (k : Kind) (p : string) (s s' : State)
    (req : Request File) :
  start k p s = (s', Some req) ->
  currentImage s = Some (source req)
  /\ operation req = k
  /\ match k with
     | Retouch =>
         instruction req = prompt s
         /\ JS.empty_string (trim (prompt s)) = false
         /\ hotspot req = editHotspot s
         /\ editHotspot s <> None
     | _ => instruction req = p /\ hotspot req = None
     end.
Proof.
  destruct k; cbn [start]; unfold handleGenerate_start,
    handleApplyFilter_start, handleApplyAdjustment_start,
    handleApplyBackground_start, handleApplyFreestyle_start, apply_start;
    destruct (currentImage s) as [image |]; try discriminate;
    try (intros [= <- <-]; cbn; auto).
  destruct (JS.empty_string (trim (prompt s))) eqn:Hblank; [discriminate |].
  destruct (editHotspot s) eqn:Hspot; [| discriminate].
  intros [= <- <-]. cbn. repeat split; congruence.
Qed.

(** X8. With an image loaded, the retouch button either does nothing or
    dispatches: none of the validation messages of [handleGenerate] can be
    set through it. *)
Theorem click_generate_never_rejects (s : State) :
  currentImage s <> None ->
  click_generate s = (s, None)
  \/ exists req : Request File,
       click_generate s = (setError None (setIsLoading true s), Some req).
Proof.
  intros Himg. unfold click_generate, generate_disabled, handleGenerate_start.
  destruct (isLoading s); [now left |].
  destruct (JS.empty_string (trim (prompt s))); [now left |].
  destruct (editHotspot s) as [spot |]; [| now left].
  cbn [orb]. destruct (currentImage s) as [image |]; [| contradiction].
  right. eexists. reflexivity.
Qed.

(** X9. A request issued by the freestyle or the background panel was made
    while nothing was loading, with a non-blank prompt, and carries that
    prompt and the current image. *)
Theorem panel_request (q : string) (s s' : State) (req : Request File) :
  click_freestyle q s = (s', Some req) \/ click_background q s = (s', Some req) ->
  isLoading s = false
  /\ JS.empty_string (trim q) = false
  /\ instruction req = q
  /\ currentImage s = Some (source req)
  /\ s' = setError None (setIsLoading true s).
Proof.
  unfold click_freestyle, click_background, panel_disabled, panel_handleApply,
    handleApplyFreestyle_start, handleApplyBackground_start, apply_start.
  destruct (isLoading s); [intros [H | H]; discriminate H |].
  destruct (JS.empty_string (trim q)); [intros [H | H]; discriminate H |].
  cbn [orb negb].
  destruct (currentImage s) as [image |]; [| intros [H | H]; discriminate H].
  intros [[= <- <-] | [= <- <-]]; cbn; auto.
Qed.

(** *** What a reply changes besides the history *)

(** X10. A successful retouch clears both hotspots and the prompt; a successful
    filter, adjustment, background or freestyle operation leaves them as
    they were.  Neither touches the error or the active tab. *)
Theorem success_side_effects (k : Kind) (r s : State)
    (reply : JS.Thrown + string) (now : Z) (file : File) :
  awaited_file reply (filePrefix k) now = inr file ->
  error (finish k r reply now s) = error s
  /\ activeTab (finish k r reply now s) = activeTab s
  /\ match k with
     | Retouch =>
         editHotspot (finish k r reply now s) = None
         /\ displayHotspot (finish k r reply now s) = None
         /\ prompt (finish k r reply now s) = ""
     | _ =>
         editHotspot (finish k r reply now s) = editHotspot s
         /\ displayHotspot (finish k r reply now s) = displayHotspot s
         /\ prompt (finish k r reply now s) = prompt s
     end.
Proof.
  intros Hfile.
  destruct k; cbn [finish filePrefix] in *;
    unfold handleGenerate_finish, handleApplyFilter_finish,
      handleApplyAdjustment_finish, handleApplyBackground_finish,
      handleApplyFreestyle_finish, apply_finish;
    rewrite Hfile; cbn; auto.
Qed.

(** X11. A crop that does not append (no selection, no image element, no canvas
    context, or a result that does not convert) only sets an error: the
    history, the cursor and the selection stay.  Without a canvas context
    the message is the one thrown by [getCroppedImg]. *)
Theorem handleCrop_failure (imgRef : option HTMLImageElement) (has2d : bool)
    (devicePixelRatio : JS.number) (now : Z) (s : State) :
  appended (Cropped imgRef has2d devicePixelRatio) now s = None ->
  (exists message : string,
     handleCrop imgRef has2d devicePixelRatio now s
     = setError (Some message) s)
  /\ (completedCrop s <> None -> imgRef <> None -> has2d = false ->
      error (handleCrop imgRef has2d devicePixelRatio now s)
      = Some "裁剪图片失败。 Could not get canvas context").
Proof.
  cbn [appended]. unfold handleCrop, getCroppedImg, getCroppedImg_canvas.
  destruct (completedCrop s) as [c |];
    [| intros _; split; [eexists; reflexivity | congruence]].
  destruct imgRef as [image |];
    [| intros _; split; [eexists; reflexivity | congruence]].
  destruct has2d; cbn [negb].
  - destruct (dataURLtoFile _ _) as [err | f]; [| discriminate].
    intros _. split; [eexists; reflexivity | discriminate].
  - intros _. split; [eexists; reflexivity | reflexivity].
Qed.

(** *** Clicks on the image *)

(** X12. Outside the retouch tab a click never sets a hotspot, an error or a
    version: on the crop tab it changes nothing, on any other tab it only
    opens the preview. *)
Theorem click_outside_retouch (e : MouseEvent) (s : State) :
  activeTab s <> tab_retouch ->
  handleImageClick e s
  = if Tab_eqb (activeTab s) tab_crop then s else setIsPreviewOpen true s.
Proof.
  intros Htab. unfold handleImageClick.
  destruct (activeTab s); try contradiction; reflexivity.
Qed.




(** X14. Cropping the whole rendered image samples, from the origin, a
    rectangle whose width and height are the binary64 products of the
    rendered size and the scale: each within [2^-20] of the natural width
    and height. *)
Theorem full_image_crop (image : HTMLImageElement)
    (devicePixelRatio : JS.number) :
  0 < width image < 2 ^ 32 ->
  0 < height image < 2 ^ 32 ->
  0 <= naturalWidth image < 2 ^ 32 ->
  0 <= naturalHeight image < 2 ^ 32 ->
  exists (canvas : Canvas) (w0 h0 : Q),
    getCroppedImg_canvas true devicePixelRatio image
      {| crop_x := JS.of_Z 0; crop_y := JS.of_Z 0;
         crop_width := JS.of_Z (width image);
         crop_height := JS.of_Z (height image) |} = inr canvas
    /\ sx (drawn canvas) = JS.Fin 0
    /\ sy (drawn canvas) = JS.Fin 0
    /\ sWidth (drawn canvas) = JS.Fin w0
    /\ sHeight (drawn canvas) = JS.Fin h0
    /\ (Qabs (w0 - inject_Z (naturalWidth image)) <= 1 # 1048576)%Q
    /\ (Qabs (h0 - inject_Z (naturalHeight image)) <= 1 # 1048576)%Q.
Proof.
  intros Hw Hh Hnw Hnh.
  pose proof (inject_Z_pos _ (proj1 Hw)) as Hwq.
  pose proof (inject_Z_pos _ (proj1 Hh)) as Hhq.
  destruct (scale_binary64 (naturalWidth image) (width image) Hw Hnw)
    as (scaleX & HsX & _).
  destruct (scale_binary64 (naturalHeight image) (height image) Hh Hnh)
    as (scaleY & HsY & _).
  destruct (scaled_binary64 (inject_Z (width image)) _ _ Hw Hnw
              ltac:(split; lra)) as (w0 & Hw0 & _ & Hew).
  destruct (scaled_binary64 (inject_Z (height image)) _ _ Hh Hnh
              ltac:(split; lra)) as (h0 & Hh0 & _ & Heh).
  eexists _, w0, h0.
  split; [unfold getCroppedImg_canvas; cbn [negb]; reflexivity |].
  cbn [drawn sx sy sWidth sHeight crop_x crop_y crop_width crop_height].
  rewrite HsX, HsY in *. unfold JS.of_Z in *.
  split; [apply round_zero_product |]. split; [apply round_zero_product |].
  split; [exact Hw0 |]. split; [exact Hh0 |].
  assert (Ew : (inject_Z (width image) * inject_Z (naturalWidth image)
                / inject_Z (width image) == inject_Z (naturalWidth image))%Q)
    by (field; lra).
  assert (Eh : (inject_Z (height image) * inject_Z (naturalHeight image)
                / inject_Z (height image) == inject_Z (naturalHeight image))%Q)
    by (field; lra).
  rewrite Ew in Hew. rewrite Eh in Heh. split; assumption.
Qed.

(** *** Chat *)

(** X15. A message sent to the chat is in the transcript from the moment it is
    sent and stays there whether the reply arrives or fails: a reply is
    appended after it, a failure leaves it last and sets the error.  The
    image history is not touched and the loading flag ends lowered. *)
Theorem handleSendMessage_transcript (message : string)
    (reply : JS.Thrown + string) (v : ChatView) :
  let sent := handleSendMessage_start message v in
  let done := handleSendMessage_finish v message reply (fst sent) in
  let asked := chatHistory (session v) ++ [{| role := user; text := message |}] in
  snd sent = message
  /\ isChatLoading (fst sent) = true
  /\ chatHistory (session (fst sent)) = asked
  /\ isChatLoading done = false
  /\ history (session done) = history (session v)
  /\ historyIndex (session done) = historyIndex (session v)
  /\ match reply with
     | inr responseText =>
         chatHistory (session done)
           = asked ++ [{| role := model; text := responseText |}]
         /\ error (session done) = None
     | inl err =>
         chatHistory (session done) = asked
         /\ error (session done)
            = Some ("聊天时发生错误。 " ++ errorMessage err)%string
     end.
Proof. destruct reply; cbn; auto 10. Qed.

Lemma replies_follow_app (l l' : list ChatMessage) (b : bool) :
  replies_follow b l = true ->
  (forall b' : bool, replies_follow b' l' = true) ->
  replies_follow b (l ++ l') = true.
Proof.
  intros Hl Hl'. revert b Hl.
  induction l as [| m l IH]; intros b Hl; cbn [app replies_follow] in *.
  - apply Hl'.
  - destruct (role m); [now apply IH |].
    apply andb_true_iff in Hl as [-> Hl]. now apply IH.
Qed.

Lemma exchange_cases (v : ChatView) (turn : string * (JS.Thrown + string)) :
  exchange v turn = v
  \/ exists tail : list ChatMessage,
       (forall b : bool, replies_follow b tail = true)
       /\ chatHistory (session (exchange v turn))
          = chatHistory (session v) ++ tail
       /\ history (session (exchange v turn)) = history (session v)
       /\ historyIndex (session (exchange v turn)) = historyIndex (session v)
       /\ isChatLoading (exchange v turn) = false.
Proof.
  unfold exchange, ChatPanel_handleSubmit.
  destruct (negb (JS.empty_string (trim (fst turn))) && negb (isChatLoading v));
    [| now left].
  right. cbn [handleSendMessage_start].
  destruct (snd turn) as [err | responseText].
  - exists [{| role := user; text := fst turn |}]. cbn. auto.
  - exists [{| role := user; text := fst turn |};
            {| role := model; text := responseText |}].
    cbn. rewrite <- app_assoc. auto.
Qed.

Lemma exchange_blank (v : ChatView) (turn : string * (JS.Thrown + string)) :
  JS.empty_string (trim (fst turn)) = true -> exchange v turn = v.
Proof.
  intros Hblank. unfold exchange, ChatPanel_handleSubmit. now rewrite Hblank.
Qed.

Lemma converse_skips_blank (turns : list (string * (JS.Thrown + string)))
    (v : ChatView) :
  converse turns v
  = converse
      (filter (fun turn => negb (JS.empty_string (trim (fst turn)))) turns) v.
Proof.
  unfold converse. revert v.
  induction turns as [| turn turns IH]; intros v; [reflexivity |].
  cbn [fold_left filter].
  destruct (JS.empty_string (trim (fst turn))) eqn:Hblank; cbn [negb].
  - rewrite exchange_blank by assumption. apply IH.
  - cbn [fold_left]. apply IH.
Qed.

(** X16. Over any sequence of chat turns, each a submit through the panel and
    the reply or failure that follows, every message of the model stays
    right after a message of the user, the image history and cursor are
    never touched, and the turns whose input is blank add nothing: the
    conversation ends as it does without them. *)
Theorem converse_replies_follow (turns : list (string * (JS.Thrown + string)))
    (v : ChatView) :
  replies_follow false (chatHistory (session v)) = true ->
  replies_follow false (chatHistory (session (converse turns v))) = true
  /\ history (session (converse turns v)) = history (session v)
  /\ historyIndex (session (converse turns v)) = historyIndex (session v)
  /\ converse turns v
     = converse
         (filter (fun turn => negb (JS.empty_string (trim (fst turn)))) turns)
         v.
Proof.
  intros Hv. split; [| split; [| split]]; [| | | apply converse_skips_blank];
    unfold converse; revert v Hv;
    (induction turns as [| turn turns IH]; intros v Hv; cbn [fold_left];
     [auto |]);
    (destruct (exchange_cases v turn)
       as [-> | (tail & Htail & Hchat & Hh & Hi & _)]; [now apply IH |]);
    (rewrite IH by (rewrite Hchat; now apply replies_follow_app)); auto.
Qed.

End App.

(** ** The properties at concrete sessions *)

Module Concrete.

(** C1. From the history [A; B] with the cursor on [A], where redo is
    enabled, [handleRedo] moves the cursor to [-1], not to [1]; the
    versions stay as they are. *)
Theorem handleRedo_steps_back :
  let s := run [Upload "A"; Append "B"; Undo] initial in
  history s = ["A"; "B"]
  /\ historyIndex s = 0
  /\ canRedo s = true
  /\ historyIndex (handleRedo s) = -1
  /\ history (handleRedo s) = ["A"; "B"].
Proof. cbv zeta. repeat split. Qed.

(** C3. Upload, append, undo, redo from the empty session ends with two
    versions and the cursor at [-1], outside [0 <= cursor < length]. *)
Theorem redo_leaves_cursor_range :
  let s := run [Upload "A"; Append "B"; Undo; Redo] initial in
  List.length (history s) = 2%nat
  /\ historyIndex s = -1
  /\ ~ cursor_in_range s.
Proof.
  cbv zeta. split; [reflexivity |]. split; [reflexivity |].
  intros Hinv. assert (H : 0 <= -1 < 2) by (apply Hinv; vm_compute; lia). lia.
Qed.

Lemma addImageToHistory_branch_cut_witness :
  let s := run [Upload "A"; Append "B"; Append "C"; Undo] initial in
  0 <= historyIndex s < Z.of_nat (List.length (history s))
  /\ history (addImageToHistory s "D" s) = ["A"; "B"; "D"]
  /\ historyIndex (addImageToHistory s "D" s) = 2.
Proof.
  intros s.
  assert (Hs : 0 <= historyIndex s < Z.of_nat (List.length (history s)))
    by (vm_compute; split; [discriminate | reflexivity]).
  split; [exact Hs |].
  destruct (addImageToHistory_branch_cut s "D" Hs) as (Hh & Hi & _).
  split; [exact Hh | exact Hi].
Defined.

(** [Binary64.round] at a few values: one tenth, the sum [0.1 + 0.2], the
    tie below [2^1024] that overflows, the largest finite value, and the
    tie between 0 and the smallest subnormal number. *)
Example round_one_tenth :
  Binary64.round (1 # 10) = JS.Fin (3602879701896397 # 36028797018963968).
Proof. vm_compute. reflexivity. Qed.

Example round_sum_of_tenths :
  Binary64.round ((3602879701896397 # 36028797018963968)
                  + (3602879701896397 # 18014398509481984))
  = JS.Fin (1351079888211149 # 4503599627370496).
Proof. vm_compute. reflexivity. Qed.

Example round_overflows :
  Binary64.round (2 ^ 1024 - 2 ^ 970) = JS.PInf
  /\ Binary64.round (2 ^ 1024 - 2 ^ 971) = JS.Fin (Qred (2 ^ 1024 - 2 ^ 971)).
Proof. vm_compute. split; reflexivity. Qed.

Example round_underflows :
  Binary64.round (2 ^ (-1075)) = JS.Fin 0
  /\ Binary64.round (3 * 2 ^ (-1076)) = JS.Fin (Qred (2 ^ (-1074))).
Proof. vm_compute. split; reflexivity. Qed.

(** Natural 3000 shown at 560, click at 21: the scale [3000 / 560] and the
    product are rounded, the product falls just below 112.5, and the
    hotspot is 112 where [round (21 * 3000 / 560)] is 113. *)
Lemma binary64_click_rounds_down :
  let s := handleImageUpload "A" initial in
  let e := {| clientX := 21; clientY := 21;
              currentTarget := {| naturalWidth := 3000; naturalHeight := 3000;
                                  width := 560; height := 560 |};
              rect_left := 0; rect_top := 0 |} in
  activeTab s = tab_retouch
  /\ editHotspot (handleImageClick_binary64 e s)
     = Some {| pt_x := JS.of_Z 112; pt_y := JS.of_Z 112 |}
  /\ JS.Qnearest (21 * inject_Z 3000 / inject_Z 560) = 113
  /\ editHotspot (handleImageClick_binary64 e s)
     <> Some {| pt_x := JS.of_Z (JS.Qnearest (21 * inject_Z 3000 / inject_Z 560));
                pt_y := JS.of_Z (JS.Qnearest (21 * inject_Z 3000 / inject_Z 560)) |}.
Proof.
  cbv zeta. split; [reflexivity |].
  split; [vm_compute; reflexivity |].
  split; [vm_compute; reflexivity |].
  vm_compute. discriminate.
Qed.

Lemma handleImageClick_binary64_hotspot_witness :
  let s := handleImageUpload "A" initial in
  let e := {| clientX := 125; clientY := 90; currentTarget := Sample.halved;
              rect_left := 100; rect_top := 40 |} in
  activeTab s = tab_retouch
  /\ Binary64.sub (JS.Fin (clientX e)) (JS.Fin (rect_left e)) = JS.Fin 25
  /\ Binary64.sub (JS.Fin (clientY e)) (JS.Fin (rect_top e)) = JS.Fin 50
  /\ editHotspot (handleImageClick_binary64 e s)
     = Some {| pt_x := JS.of_Z 50; pt_y := JS.of_Z 100 |}.
Proof.
  intros s e.
  assert (HpX : Binary64.sub (JS.Fin (clientX e)) (JS.Fin (rect_left e))
                = JS.Fin 25) by (vm_compute; reflexivity).
  assert (HpY : Binary64.sub (JS.Fin (clientY e)) (JS.Fin (rect_top e))
                = JS.Fin 50) by (vm_compute; reflexivity).
  split; [reflexivity |]. split; [exact HpX |]. split; [exact HpY |].
  destruct (handleImageClick_binary64_hotspot e s 25 50 eq_refl
              ltac:(split; reflexivity) ltac:(split; reflexivity)
              ltac:(split; [discriminate | reflexivity])
              ltac:(split; [discriminate | reflexivity])
              HpX HpY
              ltac:(split; discriminate) ltac:(split; discriminate))
    as (productX & productY & HmX & HmY & Hspot & _).
  vm_compute in HmX. vm_compute in HmY.
  injection HmX as <-. injection HmY as <-.
  exact Hspot.
Defined.

(** A second filter submitted to the handler while the first is pending is
    dispatched like the first: a request is issued and no error is set.
    Through a disabled control nothing happens at all, so no busy condition
    is reported there either. *)
Lemma second_submit_is_dispatched :
  let r := handleImageUpload "A" initial in
  let s1 := fst (handleApplyFilter_start "sepia" r) in
  isLoading s1 = true
  /\ snd (handleApplyFilter_start "blur" s1)
     = Some {| operation := Filter; source := "A"; instruction := "blur";
               hotspot := None |}
  /\ error (fst (handleApplyFilter_start "blur" s1)) = None
  /\ error (fst (click_background Sample.trim "a beach" s1)) = None.
Proof. cbv zeta. repeat split. Qed.

Lemma pending_submit_is_gated_witness :
  let r := handleImageUpload "A" initial in
  let s1 := setError None (setIsLoading true r) in
  let req := {| operation := Filter; source := "A"; instruction := "sepia";
                hotspot := None |} in
  start Sample.trim Filter "sepia" r = (s1, Some req)
  /\ click_generate Sample.trim s1 = (s1, None)
  /\ click_freestyle Sample.trim "add a cat" s1 = (s1, None)
  /\ history (finish Sample.dataURLtoFile Filter r (inr "data:image/png;base64,AA") 7 s1)
     = ["A"; "filtered-7.png"].
Proof.
  intros r s1 req.
  assert (Hstart : start Sample.trim Filter "sepia" r = (s1, Some req))
    by reflexivity.
  destruct (pending_submit_is_gated Sample.trim Sample.dataURLtoFile
              Filter "sepia" r s1 req Hstart)
    as (_ & Hgen & Hfree & _ & Hdone).
  split; [exact Hstart |]. split; [exact Hgen |].
  split; [exact (Hfree "add a cat") |].
  exact (proj1 (Hdone (inr "data:image/png;base64,AA") 7 "filtered-7.png" eq_refl)).
Defined.

Lemma failure_leaves_history_witness :
  let spot := {| pt_x := JS.of_Z 50; pt_y := JS.of_Z 100 |} in
  let r := setEditHotspot (Some spot)
             (setPrompt "remove mark" (handleImageUpload "A" initial)) in
  let s1 := setError None (setIsLoading true r) in
  let req := {| operation := Retouch; source := "A";
                instruction := "remove mark"; hotspot := Some spot |} in
  let reply : JS.Thrown + string := inl (JS.ErrorObj "quota exceeded") in
  start Sample.trim Retouch "" r = (s1, Some req)
  /\ awaited_file Sample.dataURLtoFile reply (filePrefix Retouch) 7
     = inl (JS.ErrorObj "quota exceeded")
  /\ history (finish Sample.dataURLtoFile Retouch r reply 7 s1) = ["A"]
  /\ historyIndex (finish Sample.dataURLtoFile Retouch r reply 7 s1) = 0
  /\ isLoading (finish Sample.dataURLtoFile Retouch r reply 7 s1) = false
  /\ error (finish Sample.dataURLtoFile Retouch r reply 7 s1)
     = Some "生成图片失败。 quota exceeded".
Proof.
  intros spot r s1 req reply.
  split; [reflexivity |]. split; [reflexivity |].
  exact (failure_leaves_history Sample.trim Sample.dataURLtoFile Retouch ""
           r s1 req reply 7 (JS.ErrorObj "quota exceeded") eq_refl eq_refl).
Defined.

(** A click on an image rendered zero pixels wide: the earlier error is
    cleared, none is reported, and the hotspot stored has [NaN] as its
    horizontal coordinate. *)
Lemma zero_width_click_reports_nothing :
  let s := setError (Some "earlier") (handleImageUpload "A" initial) in
  let e := {| clientX := 0; clientY := 50;
              currentTarget := {| naturalWidth := 100; naturalHeight := 200;
                                  width := 0; height := 100 |};
              rect_left := 0; rect_top := 0 |} in
  activeTab s = tab_retouch
  /\ width (currentTarget e) = 0
  /\ error (handleImageClick e s) = None
  /\ editHotspot (handleImageClick e s)
     = Some {| pt_x := JS.NaN; pt_y := JS.of_Z 100 |}.
Proof. cbv zeta. repeat split. Qed.

Lemma handleImageClick_zero_size_witness :
  let s := handleImageUpload "A" initial in
  let e := {| clientX := 5; clientY := 50;
              currentTarget := {| naturalWidth := 100; naturalHeight := 200;
                                  width := 0; height := 100 |};
              rect_left := 0; rect_top := 0 |} in
  activeTab s = tab_retouch
  /\ (width (currentTarget e) = 0 \/ height (currentTarget e) = 0)
  /\ error (handleImageClick e s) = None
  /\ exists spot : Point,
       editHotspot (handleImageClick e s) = Some spot
       /\ JS.isFinite (pt_x spot) = false.
Proof.
  intros s e.
  assert (Hzero : width (currentTarget e) = 0 \/ height (currentTarget e) = 0)
    by (left; reflexivity).
  split; [reflexivity |]. split; [exact Hzero |].
  destruct (handleImageClick_zero_size e s eq_refl Hzero)
    as (Herr & spot & Hspot & Hx & _).
  split; [exact Herr |].
  exists spot. split; [exact Hspot | exact (Hx eq_refl)].
Defined.

(** The whole 100x200 image shown at 50x100, cropped at density 1: the
    buffer is 50x100, not the 100x200 of the natural-space rectangle. *)
Lemma crop_buffer_has_rendered_size :
  let region := {| crop_x := JS.of_Z 0; crop_y := JS.of_Z 0;
                   crop_width := JS.of_Z 50; crop_height := JS.of_Z 100 |} in
  exists canvas : Canvas,
    getCroppedImg_canvas true (JS.of_Z 1) Sample.halved region = inr canvas
    /\ JS.same (canvas_width canvas) (JS.of_Z 50)
    /\ JS.same (canvas_height canvas) (JS.of_Z 100)
    /\ JS.same (sWidth (drawn canvas)) (JS.of_Z 100)
    /\ JS.same (sHeight (drawn canvas)) (JS.of_Z 200)
    /\ ~ natural_resolution Sample.halved region (JS.of_Z 1) canvas.
Proof.
  cbv zeta. eexists. split; [reflexivity |].
  split; [vm_compute; reflexivity |]. split; [vm_compute; reflexivity |].
  split; [vm_compute; reflexivity |]. split; [vm_compute; reflexivity |].
  intros [Hw _]. vm_compute in Hw. discriminate Hw.
Qed.

Lemma getCroppedImg_canvas_geometry_witness :
  JS.or_else (JS.Fin (3 # 2)) (JS.of_Z 1) = JS.Fin (3 # 2)
  /\ exists canvas : Canvas,
       getCroppedImg_canvas true (JS.Fin (3 # 2)) Sample.halved
         {| crop_x := JS.Fin 10; crop_y := JS.Fin 20;
            crop_width := JS.Fin 33; crop_height := JS.Fin 11 |} = inr canvas
       /\ canvas_width canvas = JS.of_Z 49
       /\ canvas_height canvas = JS.of_Z 16.
Proof.
  assert (Hdensity : JS.or_else (JS.Fin (3 # 2)) (JS.of_Z 1) = JS.Fin (3 # 2))
    by reflexivity.
  split; [exact Hdensity |].
  destruct (getCroppedImg_canvas_geometry Sample.halved 10 20 33 11 (3 # 2)
              (JS.Fin (3 # 2))
              ltac:(split; reflexivity) ltac:(split; reflexivity)
              ltac:(split; [discriminate | reflexivity])
              ltac:(split; [discriminate | reflexivity])
              ltac:(split; discriminate) ltac:(split; discriminate)
              ltac:(split; discriminate) ltac:(split; discriminate)
              Hdensity ltac:(discriminate) ltac:(discriminate)
              ltac:(discriminate))
    as (canvas & bufferW & bufferH & x0 & y0 & w0 & h0
        & Hrun & HbW & HbH & Hcw & Hch & _).
  vm_compute in HbW. vm_compute in HbH.
  injection HbW as <-. injection HbH as <-.
  exists canvas. split; [exact Hrun |]. split; [exact Hcw | exact Hch].
Defined.



Lemma append_clears_crop_witness :
  let region := {| crop_x := JS.of_Z 0; crop_y := JS.of_Z 0;
                   crop_width := JS.of_Z 50; crop_height := JS.of_Z 100 |} in
  let s := setCompletedCrop (Some region)
             (setCrop (Some region)
                (setActiveTab tab_crop (handleImageUpload "A" initial))) in
  let c := Cropped (Some Sample.halved) true (JS.of_Z 2) in
  appended Sample.dataURLtoFile Sample.toDataURL c 7 s = Some "cropped-7.png"
  /\ crop (complete Sample.dataURLtoFile Sample.toDataURL c 7 s) = None
  /\ completedCrop (complete Sample.dataURLtoFile Sample.toDataURL c 7 s) = None.
Proof.
  intros region s c.
  assert (Happ : appended Sample.dataURLtoFile Sample.toDataURL c 7 s
                 = Some "cropped-7.png") by reflexivity.
  destruct (append_clears_crop Sample.dataURLtoFile Sample.toDataURL c 7 s
              "cropped-7.png" Happ) as (Hc & Hcc & _).
  split; [exact Happ |]. split; [exact Hc | exact Hcc].
Defined.

End Concrete.

(** ** Properties of [dataURLtoFile] *)

Section DataURLProperties.

Import DataURL.

Variable atob : jsstring -> JS.Thrown + jsstring.

Lemma split_without_comma (str : jsstring) :
  ~ In 44%N str -> split str = (str, []).
Proof.
  induction str as [| c rest IH]; intros Hno; cbn [split]; [reflexivity |].
  rewrite IH by (intros Hin; apply Hno; now right).
  destruct (N.eqb_spec c 44) as [-> | _]; [| reflexivity].
  exfalso. apply Hno. now left.
Qed.

Lemma split_at_first_comma (first rest : jsstring) :
  ~ In 44%N first ->
  split (first ++ 44%N :: rest)
  = (first, fst (split rest) :: snd (split rest)).
Proof.
  induction first as [| c first IH]; intros Hno.
  - cbn [app split]. destruct (split rest) as [a others]. reflexivity.
  - cbn [app split]. rewrite IH by (intros Hin; apply Hno; now right).
    destruct (N.eqb_spec c 44) as [-> | _]; [| reflexivity].
    exfalso. apply Hno. now left.
Qed.

Lemma match_mime_without_colon (str : jsstring) :
  ~ In 58%N str -> match_mime str = None.
Proof.
  induction str as [| c rest IH]; intros Hno; cbn [match_mime]; [reflexivity |].
  destruct (N.eqb_spec c 58) as [-> | _].
  - exfalso. apply Hno. now left.
  - apply IH. intros Hin. apply Hno. now right.
Qed.

Lemma lazy_to_semicolon_stops (capture rest : jsstring) :
  Forall (fun c => c <> 59%N /\ line_terminator c = false) capture ->
  lazy_to_semicolon (capture ++ 59%N :: rest) = Some capture.
Proof.
  induction 1 as [| c capture [Hc Hterm] _ IH]; cbn [app lazy_to_semicolon].
  - reflexivity.
  - destruct (N.eqb_spec c 59) as [| _]; [contradiction |].
    now rewrite Hterm, IH.
Qed.

Lemma match_mime_at_first_colon (scheme capture rest : jsstring) :
  ~ In 58%N scheme ->
  Forall (fun c => c <> 59%N /\ line_terminator c = false) capture ->
  match_mime (scheme ++ 58%N :: capture ++ 59%N :: rest) = Some capture.
Proof.
  intros Hno Hcap. induction scheme as [| c scheme IH].
  - cbn [app match_mime N.eqb Pos.eqb]. now rewrite lazy_to_semicolon_stops.
  - cbn [app match_mime]. destruct (N.eqb_spec c 58) as [-> | _].
    + exfalso. apply Hno. now left.
    + apply IH. intros Hin. apply Hno. now right.
Qed.

Lemma skipn_store (i : nat) (v : N) (u8arr : list N) :
  (i < List.length u8arr)%nat ->
  skipn i (store i v u8arr) = (v mod 256)%N :: skipn (S i) u8arr
  /\ firstn i (store i v u8arr) = firstn i u8arr.
Proof.
  revert u8arr. induction i as [| i IH]; intros [| b u8arr] Hi;
    cbn [List.length] in Hi; try lia.
  - now cbn.
  - cbn [store skipn firstn]. destruct (IH u8arr ltac:(lia)) as [-> ->].
    now split.
Qed.

Lemma length_store (i : nat) (v : N) (u8arr : list N) :
  List.length (store i v u8arr) = List.length u8arr.
Proof.
  revert i. induction u8arr as [| b u8arr IH]; intros [| i]; cbn; auto.
Qed.

Lemma firstn_snoc {A : Type} (l : list A) (n : nat) (d : A) :
  (n < List.length l)%nat -> firstn (S n) l = firstn n l ++ [nth n l d].
Proof.
  revert n. induction l as [| a l IH]; intros [| n] Hn;
    cbn [List.length] in Hn; try lia; [reflexivity |].
  cbn [firstn nth app]. f_equal. apply IH. lia.
Qed.

(** The loop writes the low byte of every code unit at its index,
    whatever the array held. *)
Lemma fill_writes (bstr : jsstring) (n : nat) (u8arr : list N) :
  (n <= List.length bstr)%nat -> List.length u8arr = List.length bstr ->
  fill bstr n u8arr
  = map (fun c => (c mod 256)%N) (firstn n bstr) ++ skipn n u8arr.
Proof.
  revert u8arr. induction n as [| n IH]; intros u8arr Hn Hlen.
  - reflexivity.
  - cbn [fill]. rewrite IH by (rewrite ?length_store; lia).
    destruct (skipn_store n (nth n bstr 0%N) u8arr ltac:(lia)) as [-> _].
    rewrite (firstn_snoc bstr n 0%N) by lia.
    rewrite map_app. cbn [map]. now rewrite <- app_assoc.
Qed.

Lemma fill_whole (bstr : jsstring) :
  fill bstr (List.length bstr) (repeat 0%N (List.length bstr))
  = map (fun c => (c mod 256)%N) bstr.
Proof.
  rewrite fill_writes by (rewrite ?repeat_length; lia).
  rewrite firstn_all, skipn_all2 by (rewrite repeat_length; lia).
  apply app_nil_r.
Qed.

(** X17. A text without a comma is rejected as ["Invalid data URL"], before the
    header is parsed or [atob] is called. *)
Theorem data_url_without_comma (dataurl : jsstring) (filename : string) :
  ~ In 44%N dataurl ->
  dataURLtoFile atob dataurl filename = inl (JS.ErrorObj "Invalid data URL").
Proof.
  intros Hno. unfold dataURLtoFile. now rewrite split_without_comma.
Qed.

(** X18. A data URL [scheme:mime;params,payload] whose payload [atob] decodes
    gives a file with the given name, [mime] as its type, and as bytes the
    decoded code units, each reduced modulo 256, in order. *)
Theorem data_url_well_formed (scheme mime params payload bstr : jsstring)
    (filename : string) :
  ~ In 44%N scheme -> ~ In 58%N scheme ->
  mime <> [] ->
  Forall (fun c => c <> 44%N /\ c <> 59%N /\ line_terminator c = false) mime ->
  ~ In 44%N params -> ~ In 44%N payload ->
  atob payload = inr bstr ->
  dataURLtoFile atob (scheme ++ 58%N :: mime ++ 59%N :: params ++ 44%N :: payload)
    filename
  = inr {| bytes := map (fun c => (c mod 256)%N) bstr;
           name := filename;
           type := mime |}.
Proof.
  intros Hscheme Hcolon Hmime Hplain Hparams Hpayload Hatob.
  unfold dataURLtoFile.
  replace (scheme ++ 58%N :: mime ++ 59%N :: params ++ 44%N :: payload)
    with ((scheme ++ 58%N :: mime ++ 59%N :: params) ++ 44%N :: payload)
    by (rewrite <- !app_assoc; cbn [app]; rewrite <- !app_assoc; reflexivity).
  assert (Hheader : ~ In 44%N (scheme ++ 58%N :: mime ++ 59%N :: params)).
  { rewrite in_app_iff. cbn [In]. rewrite in_app_iff. cbn [In].
    rewrite Forall_forall in Hplain.
    intros [H | [H | [H | [H | H]]]]; try discriminate H; try contradiction.
    destruct (Hplain 44%N H) as [Hc _]. now apply Hc. }
  rewrite split_at_first_comma by exact Hheader.
  rewrite (split_without_comma payload) by exact Hpayload.
  cbn [fst snd].
  assert (Hcapture : Forall (fun c => c <> 59%N /\ line_terminator c = false) mime).
  { apply (Forall_impl _ (P := fun c => c <> 44%N /\ c <> 59%N
                                        /\ line_terminator c = false));
      [tauto | exact Hplain]. }
  rewrite (match_mime_at_first_colon scheme mime params Hcolon Hcapture).
  destruct mime as [| c mime]; [contradiction |].
  rewrite Hatob. now rewrite fill_whole.
Qed.

(** X19. Only the text between the first and the second comma is decoded: what
    follows a second comma does not change the result. *)
Theorem data_url_second_comma (first second ignored : jsstring)
    (filename : string) :
  ~ In 44%N first -> ~ In 44%N second ->
  dataURLtoFile atob (first ++ 44%N :: second ++ 44%N :: ignored) filename
  = dataURLtoFile atob (first ++ 44%N :: second) filename.
Proof.
  intros Hfirst Hsecond. unfold dataURLtoFile.
  rewrite (split_at_first_comma first (second ++ 44%N :: ignored)) by assumption.
  rewrite (split_at_first_comma first second) by assumption.
  rewrite (split_at_first_comma second ignored) by assumption.
  now rewrite (split_without_comma second) by assumption.
Qed.

(** X20. A header without a colon, or with nothing between its first colon and
    the semicolon after it, is rejected for its MIME type, whatever the
    payload is. *)
Theorem data_url_without_mime (header payload : jsstring) (filename : string) :
  ~ In 44%N header ->
  (~ In 58%N header
   \/ exists scheme params : jsstring,
        ~ In 58%N scheme /\ header = scheme ++ 58%N :: 59%N :: params) ->
  dataURLtoFile atob (header ++ 44%N :: payload) filename
  = inl (JS.ErrorObj "Could not parse MIME type from data URL").
Proof.
  intros Hcomma Hmime. unfold dataURLtoFile.
  rewrite split_at_first_comma by assumption.
  destruct Hmime as [Hno | (scheme & params & Hno & ->)].
  - now rewrite match_mime_without_colon.
  - pose proof (match_mime_at_first_colon scheme [] params Hno (Forall_nil _))
      as Hempty.
    cbn [app] in Hempty. now rewrite Hempty.
Qed.

End DataURLProperties.

(** ** Properties of the preview's zoom and pan *)

Section PreviewProperties.

Import Preview.

Lemma Qle_bool_false (a b : Q) : Qle_bool a b = false -> (b < a)%Q.
Proof.
  intros H. apply Qnot_le_lt. intros Hle.
  apply Qle_bool_iff in Hle. congruence.
Qed.

(** [Math.min(Math.max(0.1, q), 10)] on a finite [q]. *)
Lemma clamp_scale (q : Q) :
  exists s' : Q,
    JS.Math_min (JS.Math_max (JS.Fin (1 # 10)) (JS.Fin q)) (JS.of_Z 10)
    = JS.Fin s'
    /\ ((1 # 10) <= s' <= 10)%Q
    /\ ((1 # 10) <= q <= 10 -> s' == q)%Q.
Proof.
  unfold JS.Math_max, JS.Math_min, JS.of_Z.
  destruct (Qle_bool (1 # 10) q) eqn:Hlo.
  - apply Qle_bool_iff in Hlo.
    destruct (Qle_bool q (inject_Z 10)) eqn:Hhi.
    + apply Qle_bool_iff in Hhi. change (inject_Z 10) with 10%Q in Hhi.
      exists q. repeat split; try assumption; try reflexivity.
    + apply Qle_bool_false in Hhi. change (inject_Z 10) with 10%Q in Hhi.
      exists (inject_Z 10). change (inject_Z 10) with 10%Q.
      repeat split; try lra.
  - apply Qle_bool_false in Hlo.
    exists (1 # 10)%Q. repeat split; try lra; try reflexivity.
Qed.

(** The result of a wheel event on a view whose transform is finite with
    a scale of at least one tenth. *)
Lemma handleWheel_form (e : WheelEvent) (rectLeft rectTop s a b : Q)
    (dragging : bool) (last : Q * Q) :
  ((1 # 10) <= s <= 10)%Q ->
  let mouseX := (wheelX e - rectLeft)%Q in
  let mouseY := (wheelY e - rectTop)%Q in
  exists s' : Q,
    ((1 # 10) <= s' <= 10)%Q
    /\ ((1 # 10) <= s + - deltaY e * (1 # 1000) <= 10 ->
        s' == s + - deltaY e * (1 # 1000))%Q
    /\ handleWheel e (Some (rectLeft, rectTop))
         {| transform := {| scale := JS.Fin s; x := JS.Fin a; y := JS.Fin b |};
            isDragging := dragging; lastMousePosition := last |}
       = {| transform :=
              {| scale := JS.Fin s';
                 x := JS.Fin (mouseX + - ((mouseX + - a) * (s' / s)));
                 y := JS.Fin (mouseY + - ((mouseY + - b) * (s' / s))) |};
            isDragging := dragging; lastMousePosition := last |}.
Proof.
  intros Hs mouseX mouseY.
  destruct (clamp_scale (s + - deltaY e * (1 # 1000))) as (s' & Hclamp & Hb & Hid).
  exists s'. split; [exact Hb |]. split; [exact Hid |].
  unfold handleWheel.
  cbn [transform scale x y isDragging lastMousePosition JS.mul JS.add].
  rewrite Hclamp. unfold JS.sub, JS.div.
  assert (Hnz : Qeq_bool s 0 = false).
  { destruct (Qeq_bool s 0) eqn:E; [| reflexivity].
    apply Qeq_bool_iff in E. lra. }
  rewrite Hnz. reflexivity.
Qed.

Lemma step_bounded (v : View) (ev : Event) :
  bounded (transform v) -> bounded (transform (step v ev)).
Proof.
  intros (s & a & b & Ht & Hs).
  destruct v as [t dragging last]. cbn [transform] in Ht. subst t.
  destruct ev as [e [[rectLeft rectTop] |] | cx cy | cx cy | |]; cbn [step].
  - destruct (handleWheel_form e rectLeft rectTop s a b dragging last Hs)
      as (s' & Hb & _ & ->).
    cbn [transform]. eexists s', _, _. split; [reflexivity | exact Hb].
  - cbn. now exists s, a, b.
  - cbn. now exists s, a, b.
  - unfold handleMouseMove. cbn [isDragging].
    destruct dragging; cbn; eexists s, _, _; (split; [reflexivity | exact Hs]).
  - cbn. now exists s, a, b.
  - cbn. exists 1%Q, 0%Q, 0%Q. split; [reflexivity | lra].
Qed.

(** X22. Whatever the sequence of wheel, mouse and reset events, a transform
    that is finite with its scale between one tenth and ten stays so: the
    scale never leaves that range, and never reaches the zero that
    [handleWheel] divides by. *)
Theorem run_bounded (events : list Event) (v : View) :
  bounded (transform v) -> bounded (transform (run events v)).
Proof.
  unfold run. revert v.
  induction events as [| ev events IH]; intros v Hv; cbn [fold_left];
    [exact Hv |].
  apply IH, step_bounded, Hv.
Qed.

(** X25. Pointer moves outside a drag, before a press or after the release,
    change nothing. *)
Theorem moves_without_drag (moves : list (Q * Q)) (v : View) :
  isDragging v = false -> drag moves v = v.
Proof.
  unfold drag. revert v. induction moves as [| m moves IH]; intros v Hv;
    [reflexivity |].
  cbn [fold_left]. unfold handleMouseMove at 2. rewrite Hv. cbn [negb].
  now apply IH.
Qed.

End PreviewProperties.

(** ** The handlers with [dataURLtoFile] in place *)

Section Assembled.

Variable trim : string -> string.
Variable atob : DataURL.jsstring -> JS.Thrown + DataURL.jsstring.

(** X21. When the collaborator answers one of the five operations with a text
    that has no comma, the operation fails on ["Invalid data URL"]: the
    history and the cursor are those from before, the loading flag is down
    and the error is the operation's failure message followed by that
    text. *)
Theorem reply_without_comma (k : Kind) (p : string)
    (r s1 : @State DataURL.FileInit) (req : Request DataURL.FileInit)
    (url : string) (now : Z) :
  start trim k p r = (s1, Some req) ->
  ~ In 44%N (DataURL.units url) ->
  history (finish (DataURL.of_text atob) k r (inr url) now s1) = history r
  /\ historyIndex (finish (DataURL.of_text atob) k r (inr url) now s1)
     = historyIndex r
  /\ isLoading (finish (DataURL.of_text atob) k r (inr url) now s1) = false
  /\ error (finish (DataURL.of_text atob) k r (inr url) now s1)
     = Some (failurePrefix k ++ "Invalid data URL")%string.
Proof.
  intros Hstart Hno.
  destruct (start_pending _ _ _ _ _ _ Hstart) as (-> & _ & _).
  assert (Hfail : awaited_file (DataURL.of_text atob) (inr url) (filePrefix k) now
                  = inl (JS.ErrorObj "Invalid data URL")).
  { cbn [awaited_file]. unfold DataURL.of_text, DataURL.dataURLtoFile.
    now rewrite split_without_comma. }
  rewrite (finish_failure _ _ _ _ _ _ _ Hfail). cbn. auto.
Qed.

End Assembled.

(** ** The further properties at concrete inputs *)

Module Examples.

Lemma addImageToHistory_shows_new_version_witness :
  let s := run [Upload "A"; Append "B"; Append "C"; Undo] initial in
  0 <= historyIndex s < Z.of_nat (List.length (history s))
  /\ currentImage (addImageToHistory s "D" s) = Some "D"
  /\ originalImage (addImageToHistory s "D" s) = Some "A"
  /\ canRedo (addImageToHistory s "D" s) = false.
Proof.
  intros s.
  assert (Hs : 0 <= historyIndex s < Z.of_nat (List.length (history s)))
    by (vm_compute; split; [discriminate | reflexivity]).
  destruct (addImageToHistory_shows_new_version s "D" Hs) as (Hc & Ho & _ & Hr).
  split; [exact Hs |]. split; [exact Hc |]. split; [exact Ho | exact Hr].
Defined.

Lemma undo_after_append_witness :
  let s := run [Upload "A"; Append "B"; Append "C"; Undo] initial in
  0 <= historyIndex s < Z.of_nat (List.length (history s))
  /\ historyIndex (handleUndo (addImageToHistory s "D" s)) = 1
  /\ currentImage (handleUndo (addImageToHistory s "D" s)) = Some "B".
Proof.
  intros s.
  assert (Hs : 0 <= historyIndex s < Z.of_nat (List.length (history s)))
    by (vm_compute; split; [discriminate | reflexivity]).
  destruct (undo_after_append s "D" Hs) as (Hi & Hc).
  split; [exact Hs |]. split; [exact Hi | exact Hc].
Defined.

Lemma repeated_undo_witness :
  let s := run [Upload "A"; Append "B"; Append "C"] initial in
  0 <= historyIndex s
  /\ history (Nat.iter 5 handleUndo s) = ["A"; "B"; "C"]
  /\ historyIndex (Nat.iter 5 handleUndo s) = 0.
Proof.
  intros s.
  assert (Hs : 0 <= historyIndex s) by (vm_compute; discriminate).
  destruct (repeated_undo 5 s Hs) as (Hh & Hi).
  split; [exact Hs |]. split; [exact Hh | exact Hi].
Defined.

Lemma run_without_redo_in_range_witness :
  let ops := [Upload "A"; Append "B"; Undo; Undo; Append "C"] in
  Forall (fun o => o <> Redo) ops
  /\ cursor_in_range (@initial string)
  /\ cursor_in_range (run ops initial).
Proof.
  intros ops.
  assert (Hops : Forall (fun o : @Op string => o <> Redo) ops)
    by (repeat constructor; discriminate).
  assert (Hinit : cursor_in_range (@initial string))
    by (intros Hlen; cbn in Hlen; inversion Hlen).
  split; [exact Hops |]. split; [exact Hinit |].
  exact (run_without_redo_in_range ops initial Hops Hinit).
Defined.

Lemma rejected_submit_only_sets_error_witness :
  let s := handleImageUpload "A" initial in
  let s' := setError (Some "请输入您想如何编辑的描述。") s in
  start Sample.trim Retouch "" s = (s', None)
  /\ (exists message : string, s' = setError (Some message) s).
Proof.
  intros s s'.
  assert (Hstart : start Sample.trim Retouch "" s = (s', None)) by reflexivity.
  split; [exact Hstart |].
  exact (proj1 (rejected_submit_only_sets_error Sample.trim Retouch "" s s' Hstart)).
Defined.

Lemma request_of_submit_witness :
  let spot := {| pt_x := JS.of_Z 50; pt_y := JS.of_Z 100 |} in
  let s := setEditHotspot (Some spot)
             (setPrompt "remove mark" (handleImageUpload "A" initial)) in
  let req := {| operation := Retouch; source := "A";
                instruction := "remove mark"; hotspot := Some spot |} in
  start Sample.trim Retouch "" s = (setError None (setIsLoading true s), Some req)
  /\ currentImage s = Some (source req).
Proof.
  intros spot s req.
  assert (Hstart : start Sample.trim Retouch "" s
                   = (setError None (setIsLoading true s), Some req))
    by reflexivity.
  split; [exact Hstart |].
  exact (proj1 (request_of_submit Sample.trim Retouch "" s _ req Hstart)).
Defined.

Lemma click_generate_never_rejects_witness :
  let s := handleImageUpload "A" initial in
  currentImage s <> None
  /\ (click_generate Sample.trim s = (s, None)
      \/ exists req : Request string,
           click_generate Sample.trim s
           = (setError None (setIsLoading true s), Some req)).
Proof.
  intros s.
  assert (Himg : currentImage s <> None) by discriminate.
  split; [exact Himg |].
  exact (click_generate_never_rejects Sample.trim s Himg).
Defined.

Lemma panel_request_witness :
  let s := handleImageUpload "A" initial in
  let s' := setError None (setIsLoading true s) in
  let req := {| operation := Freestyle; source := "A";
                instruction := "add a cat"; hotspot := None |} in
  click_freestyle Sample.trim "add a cat" s = (s', Some req)
  /\ isLoading s = false
  /\ JS.empty_string (Sample.trim "add a cat") = false.
Proof.
  intros s s' req.
  assert (Hclick : click_freestyle Sample.trim "add a cat" s = (s', Some req))
    by reflexivity.
  destruct (panel_request Sample.trim "add a cat" s s' req (or_introl Hclick))
    as (Hl & Hq & _).
  split; [exact Hclick |]. split; [exact Hl | exact Hq].
Defined.

Lemma success_side_effects_witness :
  let spot := {| pt_x := JS.of_Z 50; pt_y := JS.of_Z 100 |} in
  let r := setEditHotspot (Some spot)
             (setPrompt "remove mark" (handleImageUpload "A" initial)) in
  let s1 := setError None (setIsLoading true r) in
  let reply : JS.Thrown + string := inr "data:image/png;base64,QUJD" in
  awaited_file Sample.dataURLtoFile reply (filePrefix Retouch) 7
    = inr "edited-7.png"
  /\ editHotspot (finish Sample.dataURLtoFile Retouch r reply 7 s1) = None
  /\ prompt (finish Sample.dataURLtoFile Retouch r reply 7 s1) = "".
Proof.
  intros spot r s1 reply.
  assert (Hfile : awaited_file Sample.dataURLtoFile reply (filePrefix Retouch) 7
                  = inr "edited-7.png") by reflexivity.
  destruct (success_side_effects Sample.dataURLtoFile Retouch r s1 reply 7
              "edited-7.png" Hfile) as (_ & _ & Hspot & _ & Hprompt).
  split; [exact Hfile |]. split; [exact Hspot | exact Hprompt].
Defined.

Lemma handleCrop_failure_witness :
  let s := setActiveTab tab_crop (handleImageUpload "A" initial) in
  appended Sample.dataURLtoFile Sample.toDataURL
    (Cropped (Some Sample.halved) true (JS.of_Z 1)) 7 s = None
  /\ exists message : string,
       handleCrop Sample.dataURLtoFile Sample.toDataURL
         (Some Sample.halved) true (JS.of_Z 1) 7 s
       = setError (Some message) s.
Proof.
  intros s.
  assert (Hnone : appended Sample.dataURLtoFile Sample.toDataURL
                    (Cropped (Some Sample.halved) true (JS.of_Z 1)) 7 s = None)
    by reflexivity.
  split; [exact Hnone |].
  exact (proj1 (handleCrop_failure Sample.dataURLtoFile Sample.toDataURL
                  (Some Sample.halved) true (JS.of_Z 1) 7 s Hnone)).
Defined.

Lemma click_outside_retouch_witness :
  let s := setActiveTab tab_filters (handleImageUpload "A" initial) in
  let e := {| clientX := 125; clientY := 90; currentTarget := Sample.halved;
              rect_left := 100; rect_top := 40 |} in
  activeTab s <> tab_retouch
  /\ handleImageClick e s = setIsPreviewOpen true s.
Proof.
  intros s e.
  assert (Htab : activeTab s <> tab_retouch) by discriminate.
  split; [exact Htab |].
  exact (click_outside_retouch e s Htab).
Defined.


Lemma full_image_crop_witness :
  0 < width Sample.halved < 2 ^ 32
  /\ 0 < height Sample.halved < 2 ^ 32
  /\ exists (canvas : Canvas) (w0 h0 : Q),
       getCroppedImg_canvas true JS.NaN Sample.halved
         {| crop_x := JS.of_Z 0; crop_y := JS.of_Z 0;
            crop_width := JS.of_Z 50; crop_height := JS.of_Z 100 |} = inr canvas
       /\ sWidth (drawn canvas) = JS.Fin w0
       /\ sHeight (drawn canvas) = JS.Fin h0
       /\ (Qabs (w0 - 100) <= 1 # 1048576)%Q
       /\ (Qabs (h0 - 200) <= 1 # 1048576)%Q.
Proof.
  assert (Hw : 0 < width Sample.halved < 2 ^ 32) by (split; reflexivity).
  assert (Hh : 0 < height Sample.halved < 2 ^ 32) by (split; reflexivity).
  split; [exact Hw |]. split; [exact Hh |].
  destruct (full_image_crop Sample.halved JS.NaN Hw Hh
              ltac:(split; [discriminate | reflexivity])
              ltac:(split; [discriminate | reflexivity]))
    as (canvas & w0 & h0 & Hrun & _ & _ & Hsw & Hsh & Hew & Heh).
  exists canvas, w0, h0.
  split; [exact Hrun |]. split; [exact Hsw |]. split; [exact Hsh |].
  split; [exact Hew | exact Heh].
Defined.

Lemma converse_replies_follow_witness :
  let v := {| session := handleImageUpload "A" initial;
              isChatLoading := false |} in
  let turns : list (string * (JS.Thrown + string)) :=
    [("what is in the picture?", inr "a red car");
     ("   ", inr "never asked");
     ("and behind it?", inl JS.NotAnError)] in
  replies_follow false (chatHistory (session v)) = true
  /\ replies_follow false
       (chatHistory (session (converse Sample.trim turns v))) = true
  /\ history (session (converse Sample.trim turns v)) = ["A"]
  /\ converse Sample.trim turns v
     = converse Sample.trim
         [("what is in the picture?", inr "a red car");
          ("and behind it?", inl JS.NotAnError)] v.
Proof.
  intros v turns.
  assert (Hv : replies_follow false (chatHistory (session v)) = true)
    by reflexivity.
  destruct (converse_replies_follow Sample.trim turns v Hv)
    as (Hr & Hh & _ & Hskip).
  split; [exact Hv |]. split; [exact Hr |]. split; [exact Hh | exact Hskip].
Defined.

Lemma data_url_without_comma_witness :
  ~ In 44%N (DataURL.units "not a data url")
  /\ DataURL.dataURLtoFile Sample.atob (DataURL.units "not a data url") "x.png"
     = inl (JS.ErrorObj "Invalid data URL").
Proof.
  assert (Hno : ~ In 44%N (DataURL.units "not a data url")).
  { cbn. intros H.
    repeat (destruct H as [H | H]; [discriminate H |]). exact H. }
  split; [exact Hno |].
  exact (data_url_without_comma Sample.atob _ "x.png" Hno).
Defined.

Lemma data_url_well_formed_witness :
  Sample.atob (DataURL.units "QUJD") = inr [65; 66; 67]%N
  /\ DataURL.dataURLtoFile Sample.atob
       (DataURL.units "data:image/png;base64,QUJD") "edited-7.png"
     = inr {| DataURL.bytes := [65; 66; 67]%N;
              DataURL.name := "edited-7.png";
              DataURL.type := DataURL.units "image/png" |}.
Proof.
  assert (Hatob : Sample.atob (DataURL.units "QUJD") = inr [65; 66; 67]%N)
    by reflexivity.
  split; [exact Hatob |].
  assert (Hplain : Forall (fun c => c <> 44%N /\ c <> 59%N
                                    /\ DataURL.line_terminator c = false)
                     (DataURL.units "image/png"))
    by (repeat constructor; discriminate).
  assert (Hno : forall text : string,
             forallb (fun c => negb (c =? 44)%N) (DataURL.units text) = true ->
             ~ In 44%N (DataURL.units text)).
  { intros text Hall Hin. rewrite forallb_forall in Hall.
    specialize (Hall 44%N Hin). discriminate Hall. }
  exact (data_url_well_formed Sample.atob
           (DataURL.units "data") (DataURL.units "image/png")
           (DataURL.units "base64") (DataURL.units "QUJD") [65; 66; 67]%N
           "edited-7.png"
           (Hno "data" eq_refl)
           ltac:(cbn; intros H;
                 repeat (destruct H as [H | H]; [discriminate H |]); exact H)
           ltac:(discriminate) Hplain (Hno "base64" eq_refl)
           (Hno "QUJD" eq_refl) Hatob).
Defined.

Lemma data_url_second_comma_witness :
  ~ In 44%N (DataURL.units "data:image/png;base64")
  /\ ~ In 44%N (DataURL.units "QUJD")
  /\ DataURL.dataURLtoFile Sample.atob
       (DataURL.units "data:image/png;base64,QUJD,!!!") "x.png"
     = DataURL.dataURLtoFile Sample.atob
         (DataURL.units "data:image/png;base64,QUJD") "x.png".
Proof.
  assert (Hno : forall text : string,
             forallb (fun c => negb (c =? 44)%N) (DataURL.units text) = true ->
             ~ In 44%N (DataURL.units text)).
  { intros text Hall Hin. rewrite forallb_forall in Hall.
    specialize (Hall 44%N Hin). discriminate Hall. }
  split; [exact (Hno "data:image/png;base64" eq_refl) |].
  split; [exact (Hno "QUJD" eq_refl) |].
  exact (data_url_second_comma Sample.atob
           (DataURL.units "data:image/png;base64") (DataURL.units "QUJD")
           (DataURL.units "!!!") "x.png"
           (Hno "data:image/png;base64" eq_refl) (Hno "QUJD" eq_refl)).
Defined.

Lemma data_url_without_mime_witness :
  ~ In 44%N (DataURL.units "image/png;base64")
  /\ ~ In 58%N (DataURL.units "image/png;base64")
  /\ DataURL.dataURLtoFile Sample.atob
       (DataURL.units "image/png;base64,QUJD") "x.png"
     = inl (JS.ErrorObj "Could not parse MIME type from data URL").
Proof.
  assert (Hno : forall (k : N) (text : string),
             forallb (fun c => negb (c =? k)%N) (DataURL.units text) = true ->
             ~ In k (DataURL.units text)).
  { intros k text Hall Hin. rewrite forallb_forall in Hall.
    specialize (Hall k Hin). rewrite N.eqb_refl in Hall. discriminate Hall. }
  split; [exact (Hno 44%N "image/png;base64" eq_refl) |].
  split; [exact (Hno 58%N "image/png;base64" eq_refl) |].
  exact (data_url_without_mime Sample.atob
           (DataURL.units "image/png;base64") (DataURL.units "QUJD") "x.png"
           (Hno 44%N "image/png;base64" eq_refl)
           (or_introl (Hno 58%N "image/png;base64" eq_refl))).
Defined.

Lemma reply_without_comma_witness :
  let r : @State DataURL.FileInit :=
    handleImageUpload {| DataURL.bytes := [65]%N; DataURL.name := "a.png";
                         DataURL.type := DataURL.units "image/png" |}
      initial in
  let s1 := setError None (setIsLoading true r) in
  let url := "I cannot edit this image." in
  fst (start Sample.trim Filter "sepia" r) = s1
  /\ ~ In 44%N (DataURL.units url)
  /\ error (finish (DataURL.of_text Sample.atob) Filter r (inr url) 7 s1)
     = Some "应用滤镜失败。 Invalid data URL".
Proof.
  intros r s1 url.
  assert (Hno : ~ In 44%N (DataURL.units url)).
  { intros Hin.
    assert (Hall : forallb (fun c => negb (c =? 44)%N) (DataURL.units url) = true)
      by reflexivity.
    rewrite forallb_forall in Hall. specialize (Hall 44%N Hin).
    discriminate Hall. }
  split; [reflexivity |]. split; [exact Hno |].
  destruct (reply_without_comma Sample.trim Sample.atob Filter "sepia" r s1
              _ url 7 eq_refl Hno) as (_ & _ & _ & Herr).
  exact Herr.
Defined.

Lemma run_bounded_witness :
  let events :=
    [Preview.Wheel {| Preview.deltaY := -3000; Preview.wheelX := 40;
                      Preview.wheelY := 30 |} (Some (0, 0)%Q);
     Preview.Wheel {| Preview.deltaY := -9000; Preview.wheelX := 40;
                      Preview.wheelY := 30 |} (Some (0, 0)%Q);
     Preview.MouseDown 10 10; Preview.MouseMove 25 5;
     Preview.Wheel {| Preview.deltaY := 50000; Preview.wheelX := 0;
                      Preview.wheelY := 0 |} (Some (0, 0)%Q)] in
  Preview.bounded (Preview.transform Preview.initial)
  /\ Preview.bounded (Preview.transform (Preview.run events Preview.initial)).
Proof.
  intros events.
  assert (Hinit : Preview.bounded (Preview.transform Preview.initial)).
  { exists 1%Q, 0%Q, 0%Q. split; [reflexivity |]. split; discriminate. }
  split; [exact Hinit |].
  exact (run_bounded events Preview.initial Hinit).
Defined.

Lemma moves_without_drag_witness :
  let v := Preview.handleMouseUpOrLeave
             (Preview.drag [(12, 11)%Q]
                (Preview.handleMouseDown 10 10 Preview.initial)) in
  Preview.isDragging v = false
  /\ Preview.drag [(30, 4); (25, 18)]%Q v = v.
Proof.
  intros v.
  assert (Hidle : Preview.isDragging v = false) by reflexivity.
  split; [exact Hidle |].
  exact (moves_without_drag [(30, 4); (25, 18)]%Q v Hidle).
Defined.

End Examples.
